(** * The knowledge-graph memory server: a shallow embedding

    The program is the class [KnowledgeGraphManager] of the memory server:
    a graph of entities and relations kept in one file of JSON lines, two
    search indexes rebuilt at every load and save, and the public
    operations on top of them.

    Conventions of the embedding.
    - A JavaScript string is a [string]: a sequence of 8-bit characters,
      with the ASCII case mapping and character classes.  The embedding
      is exact on ASCII text; outside ASCII, [toLowerCase], [trim] and the
      class of white space of JavaScript do more than the model shows.
    - A JavaScript number is a binary64 [float] where the program computes
      with fractions (similarity scores) and a [nat] where it counts or
      indexes.
    - An [async] method is a function from the state of the manager (the
      backing file and the two indexes) to an outcome and a new state; a
      [throw] is the outcome [Thrown].
    - The backing file is absent or holds well-formed records: a file that
      cannot be read, and a line that [JSON.parse] refuses, make
      [loadGraph] throw and are outside the states of the model. *)

From Stdlib Require Import Ascii String DecimalNat DecimalString Floats Uint63.
From stdpp Require Import gmap strings list.

Local Open Scope string_scope.
Local Open Scope list_scope.

(* The decimal literals below (0.7, 0.3, ...) denote the nearest binary64
   numbers, as they do in JavaScript. *)
Set Warnings "-inexact-float".

(** ** Strings of the JavaScript runtime *)

Module JS.

Definition code (c : ascii) : nat := nat_of_ascii c.

Definition is_upper (c : ascii) : bool :=
  (65 <=? code c)%nat && (code c <=? 90)%nat.

Definition is_lower (c : ascii) : bool :=
  (97 <=? code c)%nat && (code c <=? 122)%nat.

Definition is_digit (c : ascii) : bool :=
  (48 <=? code c)%nat && (code c <=? 57)%nat.

(** The class [\s] of a regular expression, which is also what [trim]
    removes: tab, line feed, vertical tab, form feed, carriage return and
    space. *)
Definition is_space (c : ascii) : bool :=
  ((9 <=? code c)%nat && (code c <=? 13)%nat) || (code c =? 32)%nat.

Definition lower_char (c : ascii) : ascii :=
  if is_upper c then ascii_of_nat (code c + 32) else c.

(** [s.toLowerCase()] *)
Fixpoint toLowerCase (s : string) : string :=
  match s with
  | EmptyString => EmptyString
  | String c s' => String (lower_char c) (toLowerCase s')
  end.

Fixpoint trimStart (s : string) : string :=
  match s with
  | EmptyString => EmptyString
  | String c s' => if is_space c then trimStart s' else s
  end.

Fixpoint trimEnd (s : string) : string :=
  match s with
  | EmptyString => EmptyString
  | String c s' =>
      match trimEnd s' with
      | EmptyString => if is_space c then EmptyString else String c EmptyString
      | t => String c t
      end
  end.

(** [s.trim()] *)
Definition trim (s : string) : string := trimEnd (trimStart s).

(** [s.split(re)] for a regular expression [re] that matches the non-empty
    runs of the characters of the class [sep]: [/\s+/] and the like.  The
    pieces before a leading run and after a trailing run are empty
    strings, as in JavaScript. *)
Fixpoint split_runs (sep : ascii -> bool) (s : string) : list string :=
  match s with
  | EmptyString => [EmptyString]
  | String c s' =>
      let rest := split_runs sep s' in
      if sep c then
        match s' with
        | String c' _ => if sep c' then rest else EmptyString :: rest
        | EmptyString => EmptyString :: rest
        end
      else
        match rest with
        | w :: ws => String c w :: ws
        | [] => [String c EmptyString]
        end
  end.

(** [words.join(glue)] *)
Fixpoint join (glue : string) (words : list string) : string :=
  match words with
  | [] => EmptyString
  | [w] => w
  | w :: ws => w +:+ glue +:+ join glue ws
  end.

(** [s.split('-')[0]]: the part of [s] before the first occurrence of the
    character. *)
Fixpoint before (stop : ascii) (s : string) : string :=
  match s with
  | EmptyString => EmptyString
  | String c s' => if Ascii.eqb c stop then EmptyString else String c (before stop s')
  end.

Definition digit_value (c : ascii) : nat := code c - 48.

Fixpoint leading_digits (s : string) : list nat :=
  match s with
  | EmptyString => []
  | String c s' => if is_digit c then digit_value c :: leading_digits s' else []
  end.

(** [parseInt(s)] on a string without sign or leading blanks: the number
    that the leading decimal digits spell, [None] (for [NaN]) when there
    is none. *)
Definition parseInt (s : string) : option nat :=
  match leading_digits s with
  | [] => None
  | ds => Some (fold_left (fun acc d => 10 * acc + d) ds 0)
  end.

(** [String(n)] for a natural number: its decimal numeral. *)
Definition of_nat (n : nat) : string := NilZero.string_of_uint (Nat.to_uint n).

(** A natural number as a JavaScript number. *)
Definition number (n : nat) : float := PrimFloat.of_uint63 (Uint63.of_Z (Z.of_nat n)).

(** [s.startsWith(p)] *)
Fixpoint startsWith (s p : string) {struct p} : bool :=
  match p, s with
  | EmptyString, _ => true
  | String a p', String b s' => Ascii.eqb a b && startsWith s' p'
  | String _ _, EmptyString => false
  end.

End JS.

(** ** The search index of the flexsearch package

    [Index] is the class the program imports from the package flexsearch;
    the package is a dependency, not a file of the repository, and the model
    follows its release line 0.7.  It covers what the program uses: an index
    created with [tokenize: "forward"], [add(id, content)] with fresh ids,
    and [search(query, { limit })].  The default encoder lowers the case and
    splits at the runs of characters that are neither letters nor digits;
    the forward tokenizer registers every non-empty prefix of every word; a
    query of several words finds the documents that have them all.  The
    relevance slots ([resolution]) only order the ids of one token, and the
    order kept here is the order of insertion.  The sources name no release
    of the package, and other releases encode otherwise (they split groups
    of digits and fold repeated letters): what depends on the matching
    itself is stated with the lookups as parameters ([searchWith]). *)

Module FlexSearch.

Definition is_separator (c : ascii) : bool :=
  (JS.code c <? 128)%nat && negb (JS.is_upper c || JS.is_lower c || JS.is_digit c).

(** [this.encode(content)] *)
Definition encode (content : string) : list string :=
  JS.split_runs is_separator (JS.toLowerCase content).

(** The tokens of one word under [tokenize: "forward"], shortest first. *)
Fixpoint forward (term : string) : list string :=
  match term with
  | EmptyString => []
  | String c term' => String c EmptyString :: map (String c) (forward term')
  end.

Section Index.

Context {Id : Type} `{EqDecision Id}.

(** [this.map]: for every token the ids of the documents that have it. *)
Record Index := { map_ : gmap string (list Id) }.

(** [new Index({ tokenize: "forward", ... })] *)
Definition create : Index := {| map_ := ∅ |}.

Definition ids (index : Index) (token : string) : list Id :=
  default [] (map_ index !! token).

(** [push_index(dupes, token, score, id)]: a token is registered once per
    document. *)
Definition push_index (id : Id) (st : list string * Index) (token : string)
  : list string * Index :=
  let (dupes, index) := st in
  if bool_decide (token ∈ dupes) then st
  else (token :: dupes,
        {| map_ := <[token := ids index token ++ [id]]> (map_ index) |}).

(** The body of the loop of [add] over the words of the content. *)
Definition add_term (id : Id) (st : list string * Index) (term : string)
  : list string * Index :=
  if bool_decide (term = EmptyString) || bool_decide (term ∈ st.1) then st
  else fold_left (push_index id) (forward term) st.

(** [index.add(id, content)] *)
Definition add (id : Id) (content : string) (index : Index) : Index :=
  if bool_decide (content = EmptyString) then index
  else (fold_left (add_term id) (encode content) ([], index)).2.

(** The words of a query: the empty pieces and the repetitions are
    dropped. *)
Definition query_terms (query : string) : list string :=
  remove_dups (filter (fun term => term ≠ EmptyString) (encode query)).

(** The ids that have every word of the query as a token. *)
Definition matches (index : Index) (query : string) : list Id :=
  if bool_decide (query = EmptyString) then []
  else
    match query_terms query with
    | [] => []
    | term :: terms =>
        List.filter
          (fun id => forallb (fun t => bool_decide (id ∈ ids index t)) terms)
          (ids index term)
    end.

(** [index.search(query, { limit })]; a limit of 0 stands for the default
    of 100. *)
Definition search (index : Index) (query : string) (limit : nat) : list Id :=
  take (if (limit =? 0)%nat then 100 else limit) (matches index query).

End Index.

Arguments Index : clear implicits.

End FlexSearch.

(** ** The data model *)

(** The discriminator property [type] of a stored record.  An object that a
    caller builds after the interface [Entity] or [Relation] has no such
    property; an object that [JSON.parse] builds from a line of the file
    has it, with the literal the line was written with. *)
Inductive EntityLiteral := entity.
Inductive RelationLiteral := relation.

(** [interface Entity] *)
Record Entity := {
  e_type : option EntityLiteral;
  name : string;
  entityType : string;
  observations : list string
}.

(** [interface Relation] *)
Record Relation := {
  r_type : option RelationLiteral;
  from : string;
  to : string;
  relationType : string
}.

(** [interface KnowledgeGraph] *)
Record KnowledgeGraph := {
  entities : list Entity;
  relations : list Relation
}.

#[global] Instance EntityLiteral_eq_dec : EqDecision EntityLiteral.
Proof. solve_decision. Defined.
#[global] Instance RelationLiteral_eq_dec : EqDecision RelationLiteral.
Proof. solve_decision. Defined.
#[global] Instance Entity_eq_dec : EqDecision Entity.
Proof. solve_decision. Defined.
#[global] Instance Relation_eq_dec : EqDecision Relation.
Proof. solve_decision. Defined.

(** One line of the backing file, as the JSON object it spells: the
    constructor is the value of its property [type].  The file is kept as
    the list of its records: [JSON.parse] reads back what [JSON.stringify]
    wrote, and the text of a record has no line break in it and is not
    blank, so that the [split] and [filter] of [loadGraph] give back the
    lines that the [join] of [saveGraph] put together. *)
Inductive Line :=
| EntityLine (name entityType : string) (observations : list string)
| RelationLine (from to relationType : string).

(** [JSON.stringify({ type: "entity", ...e })] *)
Definition stringifyEntity (e : Entity) : Line :=
  EntityLine (name e) (entityType e) (observations e).

(** [JSON.stringify({ type: "relation", ...r })] *)
Definition stringifyRelation (r : Relation) : Line :=
  RelationLine (from r) (to r) (relationType r).

(** The state of the process: the backing file ([None] when it does not
    exist, which [readFile] reports as [ENOENT]) and the two indexes of the
    manager. *)
Record Manager := {
  file : option (list Line);
  entityIndex : FlexSearch.Index nat;
  observationIndex : FlexSearch.Index string
}.

Inductive Outcome (A : Type) :=
| Returned (value : A)
| Thrown (message : string).
Arguments Returned {A} value.
Arguments Thrown {A} message.

(** An [async] method. *)
Definition Async (A : Type) : Type := Manager -> Outcome A * Manager.

Definition ret {A} (a : A) : Async A := fun m => (Returned a, m).

Definition throw {A} (message : string) : Async A := fun m => (Thrown message, m).

Definition bind {A B} (c : Async A) (k : A -> Async B) : Async B :=
  fun m =>
    match c m with
    | (Returned a, m') => k a m'
    | (Thrown message, m') => (Thrown message, m')
    end.

Notation "x <- c ;; k" := (bind c (fun x => k))
  (at level 100, c at next level, right associativity).
Notation "c ;;; k" := (bind c (fun _ => k))
  (at level 100, right associativity).

(** The state an operation leaves and the outcome it has. *)
Definition exec {A} (c : Async A) (m : Manager) : Manager := (c m).2.
Definition outcome {A} (c : Async A) (m : Manager) : Outcome A := (c m).1.

(** [fs.writeFile(MEMORY_FILE_PATH, lines.join("\n"))] *)
Definition writeFile (lines : list Line) : Async unit :=
  fun m => (Returned tt,
            {| file := Some lines;
               entityIndex := entityIndex m;
               observationIndex := observationIndex m |}).

(** [new KnowledgeGraphManager()], in a directory with no [memory.json]
    yet. *)
Definition knowledgeGraphManager : Manager :=
  {| file := None;
     entityIndex := FlexSearch.create;
     observationIndex := FlexSearch.create |}.

(** ** The persistent store *)

(** [array.some(p)] and [array.includes(x)] *)
Definition some {A} (p : A -> bool) (l : list A) : bool := existsb p l.
Definition includes {A} `{EqDecision A} (x : A) (l : list A) : bool :=
  bool_decide (x ∈ l).

(** The id under which [rebuildIndexes] registers an observation:
    [`${entityIndex}-${obsIndex}`]. *)
Definition observationId (entityIndex obsIndex : nat) : string :=
  JS.of_nat entityIndex +:+ "-" +:+ JS.of_nat obsIndex.

(** The documents of the two indexes, in the order of the two [forEach]
    loops of [rebuildIndexes]. *)
Definition entityDocuments (graph : KnowledgeGraph) : list (nat * string) :=
  imap (fun index e => (index, name e +:+ " " +:+ entityType e)) (entities graph).

Definition observationDocuments (graph : KnowledgeGraph) : list (string * string) :=
  concat (imap (fun entityIndex e =>
                  imap (fun obsIndex observation =>
                          (observationId entityIndex obsIndex, observation))
                       (observations e))
               (entities graph)).

Definition buildIndex {Id} `{EqDecision Id} (documents : list (Id * string))
  : FlexSearch.Index Id :=
  fold_left (fun index d => FlexSearch.add d.1 d.2 index) documents FlexSearch.create.

(** [rebuildIndexes(graph)] *)
Definition rebuildIndexes (graph : KnowledgeGraph) : Async unit :=
  fun m => (Returned tt,
            {| file := file m;
               entityIndex := buildIndex (entityDocuments graph);
               observationIndex := buildIndex (observationDocuments graph) |}).

(** [fs.readFile(MEMORY_FILE_PATH, "utf-8")]; [None] is the error [ENOENT],
    the one read error that [loadGraph] catches. *)
Definition readFile : Async (option (list Line)) :=
  fun m => (Returned (file m), m).

Definition emptyGraph : KnowledgeGraph := {| entities := []; relations := [] |}.

(** The body of the [reduce] of [loadGraph]: the parsed line is pushed as it
    is, with its property [type]. *)
Definition pushItem (graph : KnowledgeGraph) (item : Line) : KnowledgeGraph :=
  match item with
  | EntityLine n t o =>
      {| entities := entities graph ++
                     [{| e_type := Some entity; name := n; entityType := t;
                         observations := o |}];
         relations := relations graph |}
  | RelationLine f t rt =>
      {| entities := entities graph;
         relations := relations graph ++
                      [{| r_type := Some relation; from := f; to := t;
                          relationType := rt |}] |}
  end.

(** [loadGraph()] *)
Definition loadGraph : Async KnowledgeGraph :=
  data <- readFile ;;
  match data with
  | Some lines =>
      let graph := fold_left pushItem lines emptyGraph in
      rebuildIndexes graph ;;;
      ret graph
  | None =>
      rebuildIndexes emptyGraph ;;;
      ret emptyGraph
  end.

(** [saveGraph(graph)] *)
Definition saveGraph (graph : KnowledgeGraph) : Async unit :=
  let lines := map stringifyEntity (entities graph) ++
               map stringifyRelation (relations graph) in
  writeFile lines ;;;
  rebuildIndexes graph.

(** ** The operations *)

Definition sameRelation (a b : Relation) : bool :=
  bool_decide (from a = from b) && bool_decide (to a = to b) &&
  bool_decide (relationType a = relationType b).

(** [createEntities(entities)] *)
Definition createEntities (es : list Entity) : Async (list Entity) :=
  graph <- loadGraph ;;
  let newEntities :=
    List.filter (fun e => negb (some (fun existingEntity =>
                                        bool_decide (name existingEntity = name e))
                                     (entities graph))) es in
  let graph := {| entities := entities graph ++ newEntities;
                  relations := relations graph |} in
  saveGraph graph ;;;
  ret newEntities.

(** [createRelations(relations)] *)
Definition createRelations (rs : list Relation) : Async (list Relation) :=
  graph <- loadGraph ;;
  let newRelations :=
    List.filter (fun r => negb (some (fun existingRelation =>
                                        sameRelation existingRelation r)
                                     (relations graph))) rs in
  let graph := {| entities := entities graph;
                  relations := relations graph ++ newRelations |} in
  saveGraph graph ;;;
  ret newRelations.

(** The argument and the result of [addObservations]. *)
Record ObservationInput := {
  entityName : string;
  contents : list string
}.

Record ObservationResult := {
  resultEntityName : string;
  addedObservations : list string
}.

Definition withObservations (e : Entity) (obs : list string) : Entity :=
  {| e_type := e_type e; name := name e; entityType := entityType e;
     observations := obs |}.

(** The callback of the [map] of [addObservations]: [find] gives the first
    entity of that name, and the [push] changes that object of the graph. *)
Definition addObservation (graph : KnowledgeGraph) (o : ObservationInput)
  : Outcome (ObservationResult * KnowledgeGraph) :=
  match list_find (fun e => name e = entityName o) (entities graph) with
  | None => Thrown ("Entity with name " +:+ entityName o +:+ " not found")
  | Some (i, e) =>
      let newObservations :=
        List.filter (fun content => negb (includes content (observations e)))
                    (contents o) in
      Returned
        ({| resultEntityName := entityName o; addedObservations := newObservations |},
         {| entities := <[i := withObservations e (observations e ++ newObservations)]>
                          (entities graph);
            relations := relations graph |})
  end.

(** [observations.map(o => ...)] over the graph the callback changes; the
    first [throw] ends it. *)
Fixpoint mapObservations (graph : KnowledgeGraph) (os : list ObservationInput)
  : Outcome (list ObservationResult * KnowledgeGraph) :=
  match os with
  | [] => Returned ([], graph)
  | o :: os' =>
      match addObservation graph o with
      | Thrown message => Thrown message
      | Returned (r, graph') =>
          match mapObservations graph' os' with
          | Thrown message => Thrown message
          | Returned (rs, graph'') => Returned (r :: rs, graph'')
          end
      end
  end.

(** [addObservations(observations)] *)
Definition addObservations (os : list ObservationInput)
  : Async (list ObservationResult) :=
  graph <- loadGraph ;;
  match mapObservations graph os with
  | Thrown message => throw message
  | Returned (results, graph) =>
      saveGraph graph ;;;
      ret results
  end.

(** [deleteEntities(entityNames)] *)
Definition deleteEntities (entityNames : list string) : Async unit :=
  graph <- loadGraph ;;
  let graph :=
    {| entities := List.filter (fun e => negb (includes (name e) entityNames))
                               (entities graph);
       relations := relations graph |} in
  let graph :=
    {| entities := entities graph;
       relations := List.filter (fun r => negb (includes (from r) entityNames) &&
                                          negb (includes (to r) entityNames))
                                (relations graph) |} in
  saveGraph graph.

(** The argument of [deleteObservations]. *)
Record Deletion := {
  deletionEntityName : string;
  deletionObservations : list string
}.

(** The callback of the [forEach] of [deleteObservations]. *)
Definition deleteObservation (graph : KnowledgeGraph) (d : Deletion) : KnowledgeGraph :=
  match list_find (fun e => name e = deletionEntityName d) (entities graph) with
  | Some (i, e) =>
      {| entities :=
           <[i := withObservations e
                    (List.filter (fun o => negb (includes o (deletionObservations d)))
                                 (observations e))]> (entities graph);
         relations := relations graph |}
  | None => graph
  end.

(** [deleteObservations(deletions)] *)
Definition deleteObservations (deletions : list Deletion) : Async unit :=
  graph <- loadGraph ;;
  saveGraph (fold_left deleteObservation deletions graph).

(** [deleteRelations(relations)] *)
Definition deleteRelations (rs : list Relation) : Async unit :=
  graph <- loadGraph ;;
  let graph :=
    {| entities := entities graph;
       relations := List.filter (fun r => negb (some (fun delRelation =>
                                                        sameRelation r delRelation) rs))
                                (relations graph) |} in
  saveGraph graph.

(** [readGraph()] *)
Definition readGraph : Async KnowledgeGraph := loadGraph.

(** [array.filter((x, index) => p(x, index))] *)
Fixpoint filterFrom {A} (p : A -> nat -> bool) (start : nat) (l : list A) : list A :=
  match l with
  | [] => []
  | x :: l' =>
      if p x start then x :: filterFrom p (S start) l'
      else filterFrom p (S start) l'
  end.

Definition filterIndexed {A} (p : A -> nat -> bool) (l : list A) : list A :=
  filterFrom p 0 l.

(** [this.entityIndex.search(query, { limit })] and
    [this.observationIndex.search(query, { limit })] *)
Definition searchEntityIndex (query : string) (limit : nat) : Async (list nat) :=
  fun m => (Returned (FlexSearch.search (entityIndex m) query limit), m).

Definition searchObservationIndex (query : string) (limit : nat) : Async (list string) :=
  fun m => (Returned (FlexSearch.search (observationIndex m) query limit), m).

(** The entity indexes of the ids the observation index returns:
    [parseInt(id.split('-')[0])], kept unless it is [NaN]. *)
Definition observationEntityIndexes (observationResults : list string) : list nat :=
  omap (fun id => JS.parseInt (JS.before "-" id)) observationResults.

(** The relations between the entities of the given names. *)
Definition relationsBetween (names : list string) (rs : list Relation) : list Relation :=
  List.filter (fun r => includes (from r) names && includes (to r) names) rs.

(** [searchNodes(query)] *)
Definition searchNodes (query : string) : Async KnowledgeGraph :=
  graph <- loadGraph ;;
  if bool_decide (JS.trim query = EmptyString) then
    ret {| entities := []; relations := [] |}
  else
    entityResults <- searchEntityIndex query 100 ;;
    let matchedEntityIndexes := entityResults in
    observationResults <- searchObservationIndex query 100 ;;
    let matchedObservationEntityIndexes := observationEntityIndexes observationResults in
    let allMatchedIndexes := matchedEntityIndexes ++ matchedObservationEntityIndexes in
    let filteredEntities :=
      filterIndexed (fun _ index => includes index allMatchedIndexes) (entities graph) in
    let filteredEntityNames := map name filteredEntities in
    let filteredRelations := relationsBetween filteredEntityNames (relations graph) in
    ret {| entities := filteredEntities; relations := filteredRelations |}.

(** [openNodes(names)] *)
Definition openNodes (names : list string) : Async KnowledgeGraph :=
  graph <- loadGraph ;;
  let filteredEntities := List.filter (fun e => includes (name e) names) (entities graph) in
  let filteredEntityNames := map name filteredEntities in
  let filteredRelations := relationsBetween filteredEntityNames (relations graph) in
  ret {| entities := filteredEntities; relations := filteredRelations |}.

(** The argument and the result of [batchCreate]; a property that the
    caller leaves out is [None]. *)
Record BatchData := {
  batchEntities : option (list Entity);
  batchRelations : option (list Relation);
  batchObservations : option (list ObservationInput)
}.

Record BatchResult := {
  createdEntities : list Entity;
  createdRelations : list Relation;
  batchAddedObservations : list ObservationResult
}.

(** [batchCreate(data)].  The entities of the request are taken as distinct
    objects, as they are when they come from the JSON of a tool call.  The
    array [createdEntities] holds the very objects pushed onto the graph, so
    it shows the observations the third step adds to them: it is read off
    the graph at the end. *)
Definition batchCreate (data : BatchData) : Async BatchResult :=
  graph <- loadGraph ;;
  let existing := length (entities graph) in
  let '(graph, created) :=
    match batchEntities data with
    | Some ((_ :: _) as es) =>
        let newEntities :=
          List.filter (fun e => negb (some (fun existingEntity =>
                                              bool_decide (name existingEntity = name e))
                                           (entities graph))) es in
        ({| entities := entities graph ++ newEntities; relations := relations graph |},
         length newEntities)
    | _ => (graph, 0)
    end in
  let '(graph, createdRelations) :=
    match batchRelations data with
    | Some ((_ :: _) as rs) =>
        let newRelations :=
          List.filter (fun r => negb (some (fun existingRelation =>
                                              sameRelation existingRelation r)
                                           (relations graph))) rs in
        ({| entities := entities graph; relations := relations graph ++ newRelations |},
         newRelations)
    | _ => (graph, [])
    end in
  match
    match batchObservations data with
    | Some ((_ :: _) as os) => mapObservations graph os
    | _ => Returned ([], graph)
    end
  with
  | Thrown message => throw message
  | Returned (added, graph) =>
      saveGraph graph ;;;
      ret {| createdEntities := take created (drop existing (entities graph));
             createdRelations := createdRelations;
             batchAddedObservations := added |}
  end.

(** ** The similarity engine: the helpers of [findDuplicates] *)

(** One row of the distance matrix: [above] is the row [matrix[i-1]] from
    column [j-1] on, [left] is [matrix[i][j-1]], [a] is [str1[i-1]]. *)
Fixpoint fillRow (a : ascii) (str2 : string) (above : list nat) (left : nat) : list nat :=
  match str2, above with
  | String b str2', diagonal :: ((up :: _) as above') =>
      let cost := if Ascii.eqb (JS.lower_char a) (JS.lower_char b) then 0 else 1 in
      let cell := Nat.min (Nat.min (up + 1) (left + 1)) (diagonal + cost) in
      cell :: fillRow a str2' above' cell
  | _, _ => []
  end.

(** The rows [matrix[i]] for [i] from [i0], given [matrix[i0 - 1]]; the
    result is the last row. *)
Fixpoint fillMatrix (str1 str2 : string) (i : nat) (above : list nat) : list nat :=
  match str1 with
  | EmptyString => above
  | String a str1' => fillMatrix str1' str2 (S i) (i :: fillRow a str2 above i)
  end.

(** [matrix[len1][len2]] *)
Definition editDistance (str1 str2 : string) : nat :=
  List.last (fillMatrix str1 str2 1 (seq 0 (S (String.length str2)))) 0.

(** [calculateSimilarity(str1, str2)] *)
Definition calculateSimilarity (str1 str2 : string) : float :=
  if bool_decide (str1 = str2) then 1%float
  else
    let len1 := String.length str1 in
    let len2 := String.length str2 in
    let maxLen := Nat.max len1 len2 in
    if (maxLen =? 0)%nat then 1%float
    else (1 - JS.number (editDistance str1 str2) / JS.number maxLen)%float.

Definition commonWords : list string :=
  ["the"; "a"; "an"; "and"; "or"; "but"; "in"; "on"; "at"; "to"; "for"; "of";
   "with"; "by"; "is"; "are"; "was"; "were"; "be"; "been"; "have"; "has"; "had";
   "do"; "does"; "did"; "will"; "would"; "could"; "should"; "may"; "might";
   "must"; "can"].

(** [extractKeywords(text)] *)
Definition extractKeywords (text : string) : list string :=
  List.filter (fun word => (2 <? String.length word)%nat && negb (includes word commonWords))
              (JS.split_runs JS.is_space (JS.toLowerCase text)).

(** A [Record<string, number>] with its keys in the order of insertion. *)
Definition Frequencies := list (string * float).

Fixpoint frequency (tf : Frequencies) (word : string) : option float :=
  match tf with
  | [] => None
  | (w, freq) :: tf' => if bool_decide (w = word) then Some freq else frequency tf' word
  end.

(** [tf[word] = (tf[word] || 0) + 1] *)
Fixpoint count (tf : Frequencies) (word : string) : Frequencies :=
  match tf with
  | [] => [(word, (0 + 1)%float)]
  | (w, freq) :: tf' =>
      if bool_decide (w = word) then (w, (freq + 1)%float) :: tf'
      else (w, freq) :: count tf' word
  end.

(** [new Set(words)], in the order of the first occurrences. *)
Definition unique (words : list string) : list string :=
  fold_left (fun seen w => if includes w seen then seen else seen ++ [w]) words [].

(** [calculateTFIDFSimilarity(str1, str2)] *)
Definition calculateTFIDFSimilarity (str1 str2 : string) : float :=
  let keywords1 := extractKeywords str1 in
  let keywords2 := extractKeywords str2 in
  if (length keywords1 =? 0)%nat && (length keywords2 =? 0)%nat then 1%float
  else if (length keywords1 =? 0)%nat || (length keywords2 =? 0)%nat then 0%float
  else
    let tf1 := fold_left count keywords1 [] in
    let tf2 := fold_left count keywords2 [] in
    let norm1 := PrimFloat.sqrt (fold_left (fun sum freq => (sum + freq * freq)%float)
                                           (map snd tf1) 0%float) in
    let norm2 := PrimFloat.sqrt (fold_left (fun sum freq => (sum + freq * freq)%float)
                                           (map snd tf2) 0%float) in
    let allWords := unique (map fst tf1 ++ map fst tf2) in
    fold_left (fun dotProduct word =>
                 let tf1Norm := match frequency tf1 word with
                                | Some freq => (freq / norm1)%float
                                | None => 0%float
                                end in
                 let tf2Norm := match frequency tf2 word with
                                | Some freq => (freq / norm2)%float
                                | None => 0%float
                                end in
                 (dotProduct + tf1Norm * tf2Norm)%float)
              allWords 0%float.

(** [calculateSemanticSimilarity(str1, str2)] *)
Definition calculateSemanticSimilarity (str1 str2 : string) : float :=
  let stringSim := calculateSimilarity str1 str2 in
  let tfidfSim := calculateTFIDFSimilarity str1 str2 in
  ((stringSim * 0.7) + (tfidfSim * 0.3))%float.

(** [s.slice(n)] *)
Definition slice (n : nat) (s : string) : string :=
  String.substring n (String.length s - n) s.

(** [s.endsWith(p)] *)
Definition endsWith (s p : string) : bool :=
  JS.startsWith (String.rev s) (String.rev p).

(** [name.replace(/^(get|set|is|has|can|should|will|did|does|do)_/i, '')] *)
Definition removePrefix (name : string) : string :=
  match List.find (fun p => JS.startsWith (JS.toLowerCase name) (p +:+ "_"))
                  ["get"; "set"; "is"; "has"; "can"; "should"; "will"; "did"; "does"; "do"]
  with
  | Some p => slice (String.length p + 1) name
  | None => name
  end.

(** [name.replace(/_(getter|setter|handler|manager|service|util|utils)$/i, '')] *)
Definition removeSuffix (name : string) : string :=
  match List.find (fun p => endsWith (JS.toLowerCase name) ("_" +:+ p))
                  ["getter"; "setter"; "handler"; "manager"; "service"; "util"; "utils"]
  with
  | Some p => String.substring 0 (String.length name - (String.length p + 1)) name
  | None => name
  end.

(** [name.replace(/([a-z])([A-Z])/g, '$1 $2')] *)
Fixpoint spaceCamelCase (name : string) : string :=
  match name with
  | EmptyString => EmptyString
  | String a rest =>
      match rest with
      | String b _ =>
          if JS.is_lower a && JS.is_upper b
          then String a (String " " (spaceCamelCase rest))
          else String a (spaceCamelCase rest)
      | EmptyString => String a EmptyString
      end
  end.

(** [normalizeEntityName(name)] *)
Definition normalizeEntityName (name : string) : string :=
  JS.toLowerCase (spaceCamelCase (removeSuffix (removePrefix name))).

Definition synonymMap : list (string * string) :=
  [("create", "make"); ("make", "create"); ("delete", "remove"); ("remove", "delete");
   ("find", "search"); ("search", "find"); ("update", "modify"); ("modify", "update");
   ("get", "fetch"); ("fetch", "get")].

(** [applySynonyms(text)] *)
Definition applySynonyms (text : string) : string :=
  let words := JS.split_runs JS.is_space (JS.toLowerCase text) in
  JS.join " " (map (fun word =>
                      match List.find (fun kv => bool_decide (kv.1 = word)) synonymMap with
                      | Some kv => kv.2
                      | None => word
                      end) words).

(** ** The duplicate detector *)

Inductive Preset := strict | standard | loose.

(** The argument [options] of [findDuplicates]; a property that the caller
    leaves out is [None]. *)
Module Options.
Record t := {
  entityNameSimilarityThreshold : option float;
  considerEntityType : option bool;
  observationSimilarityThreshold : option float;
  checkExistingGraph : option bool;
  semanticMatchingEnabled : option bool;
  preset : option Preset
}.

(** [{}], the default of the parameter. *)
Definition empty : t :=
  {| entityNameSimilarityThreshold := None; considerEntityType := None;
     observationSimilarityThreshold := None; checkExistingGraph := None;
     semanticMatchingEnabled := None; preset := None |}.
End Options.

(** [mergedOptions] *)
Record MergedOptions := {
  entityNameSimilarityThreshold : float;
  considerEntityType : bool;
  observationSimilarityThreshold : float;
  checkExistingGraph : bool;
  semanticMatchingEnabled : bool;
  preset : Preset
}.

Definition defaultOptions : MergedOptions :=
  {| entityNameSimilarityThreshold := 0.8%float;
     considerEntityType := true;
     observationSimilarityThreshold := 0.7%float;
     checkExistingGraph := false;
     semanticMatchingEnabled := false;
     preset := standard |}.

(** [presetConfigs[p]]: the three properties a preset sets. *)
Definition presetConfigs (p : Preset) : float * float * bool :=
  match p with
  | strict => (0.95%float, 0.9%float, false)
  | standard => (0.8%float, 0.7%float, false)
  | loose => (0.6%float, 0.5%float, true)
  end.

(** [{ ...defaultOptions, ...presetConfig, ...options }] with
    [presetConfig = presetConfigs[options.preset || defaultOptions.preset]] *)
Definition mergeOptions (options : Options.t) : MergedOptions :=
  let '(presetEntity, presetObservation, presetSemantic) :=
    presetConfigs (default (preset defaultOptions) (Options.preset options)) in
  {| entityNameSimilarityThreshold :=
       default presetEntity (Options.entityNameSimilarityThreshold options);
     considerEntityType :=
       default (considerEntityType defaultOptions) (Options.considerEntityType options);
     observationSimilarityThreshold :=
       default presetObservation (Options.observationSimilarityThreshold options);
     checkExistingGraph :=
       default (checkExistingGraph defaultOptions) (Options.checkExistingGraph options);
     semanticMatchingEnabled :=
       default presetSemantic (Options.semanticMatchingEnabled options);
     preset := default (preset defaultOptions) (Options.preset options) |}.

(** The argument [data] of [findDuplicates]. *)
Record DuplicateData := {
  dataEntities : option (list Entity);
  dataRelations : option (list Relation);
  dataObservations : option (list ObservationInput);
  dataCheckExistingGraph : option bool
}.

(** One reported pair.  [candidate] and [existing] are the properties
    [entity] and [existingEntity] (or [relation] and [existingRelation],
    [observation] and [existingObservation], [entity1] and [entity2],
    [relation1] and [relation2]) of the source; the property [details], a
    text for display, is left out. *)
Record Duplicate (A : Type) := {
  candidate : A;
  existing : A;
  similarityScore : float;
  matchType : string;
  duplicateType : string
}.
Arguments candidate {A}.
Arguments existing {A}.
Arguments similarityScore {A}.
Arguments matchType {A}.
Arguments duplicateType {A}.

(** [a >= b] on numbers. *)
Definition geb (a b : float) : bool := PrimFloat.leb b a.
(** [a > b] on numbers. *)
Definition gtb (a b : float) : bool := PrimFloat.ltb b a.

(** The body of the two loops over pairs of entities. *)
Definition compareEntities (mergedOptions : MergedOptions) (e existingEntity : Entity)
  : option (Duplicate Entity) :=
  let '(nameSimilarity, typeMatch, matchType) :=
    if semanticMatchingEnabled mergedOptions then
      let normalizedName1 := normalizeEntityName (name e) in
      let normalizedName2 := normalizeEntityName (name existingEntity) in
      let synonymName1 := applySynonyms normalizedName1 in
      let synonymName2 := applySynonyms normalizedName2 in
      let nameSimilarity := calculateSemanticSimilarity synonymName1 synonymName2 in
      let typeMatch :=
        if considerEntityType mergedOptions
        then calculateSemanticSimilarity (entityType e) (entityType existingEntity)
        else 1%float in
      (nameSimilarity, typeMatch,
       if bool_decide (name e = name existingEntity) then "exact"
       else if gtb nameSimilarity 0.9 then "semantic"
       else "fuzzy")
    else
      let nameSimilarity := calculateSimilarity (name e) (name existingEntity) in
      let typeMatch :=
        if considerEntityType mergedOptions
        then calculateSimilarity (entityType e) (entityType existingEntity)
        else 1%float in
      (nameSimilarity, typeMatch,
       if bool_decide (name e = name existingEntity) then "exact" else "fuzzy") in
  let similarityScore := ((nameSimilarity * 0.7) + (typeMatch * 0.3))%float in
  let duplicateType :=
    if bool_decide (name e = name existingEntity) &&
       bool_decide (entityType e = entityType existingEntity)
    then "structural" else "semantic" in
  if geb similarityScore (entityNameSimilarityThreshold mergedOptions) then
    Some {| candidate := e; existing := existingEntity;
            similarityScore := similarityScore; matchType := matchType;
            duplicateType := duplicateType |}
  else None.

(** The body of the two loops over pairs of relations. *)
Definition compareRelations (mergedOptions : MergedOptions) (r existingRelation : Relation)
  : option (Duplicate Relation) :=
  let same := sameRelation r existingRelation in
  let '(fromSimilarity, toSimilarity, typeSimilarity, matchType) :=
    if semanticMatchingEnabled mergedOptions then
      let normalizedFrom1 := normalizeEntityName (from r) in
      let normalizedFrom2 := normalizeEntityName (from existingRelation) in
      let normalizedTo1 := normalizeEntityName (to r) in
      let normalizedTo2 := normalizeEntityName (to existingRelation) in
      let fromSimilarity := calculateSemanticSimilarity normalizedFrom1 normalizedFrom2 in
      let toSimilarity := calculateSemanticSimilarity normalizedTo1 normalizedTo2 in
      let typeSimilarity :=
        calculateSemanticSimilarity (relationType r) (relationType existingRelation) in
      (fromSimilarity, toSimilarity, typeSimilarity,
       if same then "exact"
       else if gtb fromSimilarity 0.9 && gtb toSimilarity 0.9 && gtb typeSimilarity 0.9
            then "semantic"
       else "fuzzy")
    else
      (calculateSimilarity (from r) (from existingRelation),
       calculateSimilarity (to r) (to existingRelation),
       calculateSimilarity (relationType r) (relationType existingRelation),
       if same then "exact" else "fuzzy") in
  let similarityScore :=
    ((fromSimilarity * 0.35) + (toSimilarity * 0.35) + (typeSimilarity * 0.3))%float in
  let duplicateType := if same then "structural" else "semantic" in
  if geb similarityScore (entityNameSimilarityThreshold mergedOptions) then
    Some {| candidate := r; existing := existingRelation;
            similarityScore := similarityScore; matchType := matchType;
            duplicateType := duplicateType |}
  else None.

(** The body of the loop over a candidate text and the observations of the
    entity it is for. *)
Definition compareObservations (mergedOptions : MergedOptions)
    (content existingObservation : string) : option (Duplicate string) :=
  let '(similarityScore, matchType) :=
    if semanticMatchingEnabled mergedOptions then
      let normalizedContent1 := normalizeEntityName content in
      let normalizedContent2 := normalizeEntityName existingObservation in
      let synonymContent1 := applySynonyms normalizedContent1 in
      let synonymContent2 := applySynonyms normalizedContent2 in
      let similarityScore := calculateSemanticSimilarity synonymContent1 synonymContent2 in
      (similarityScore,
       if bool_decide (content = existingObservation) then "exact"
       else if gtb similarityScore 0.9 then "semantic"
       else "fuzzy")
    else
      (calculateSimilarity content existingObservation,
       if bool_decide (content = existingObservation) then "exact" else "fuzzy") in
  if geb similarityScore (observationSimilarityThreshold mergedOptions) then
    Some {| candidate := content; existing := existingObservation;
            similarityScore := similarityScore; matchType := matchType;
            duplicateType := if bool_decide (content = existingObservation)
                             then "structural" else "semantic" |}
  else None.

(** [for (i ...) for (j = i + 1 ...)]: every element with each later one. *)
Fixpoint laterPairs {A B} (f : A -> A -> option B) (l : list A) : list B :=
  match l with
  | [] => []
  | x :: l' => omap (f x) l' ++ laterPairs f l'
  end.

Record Statistics := {
  totalDuplicates : nat;
  entityDuplicates : nat;
  relationDuplicates : nat;
  observationDuplicates : nat;
  existingEntityDuplicates : nat;
  existingRelationDuplicates : nat
}.

(** The report of [findDuplicates]; [existingDuplicates.entities] and
    [existingDuplicates.relations] are the two last lists. *)
Record DuplicateReport := {
  duplicateEntities : list (Duplicate Entity);
  duplicateRelations : list (Duplicate Relation);
  duplicateObservations : list (string * Duplicate string);
  existingDuplicateEntities : list (Duplicate Entity);
  existingDuplicateRelations : list (Duplicate Relation);
  statistics : Statistics
}.

(** [findDuplicates(data, options)] *)
Definition findDuplicates (data : DuplicateData) (options : Options.t)
  : Async DuplicateReport :=
  graph <- loadGraph ;;
  let mergedOptions := mergeOptions options in
  let duplicateEntities :=
    flat_map (fun e => omap (compareEntities mergedOptions e) (entities graph))
             (default [] (dataEntities data)) in
  let duplicateRelations :=
    flat_map (fun r => omap (compareRelations mergedOptions r) (relations graph))
             (default [] (dataRelations data)) in
  let duplicateObservations :=
    flat_map (fun o =>
                match List.find (fun e => bool_decide (name e = entityName o))
                                (entities graph) with
                | None => []
                | Some e =>
                    flat_map (fun content =>
                                omap (fun existingObservation =>
                                        pair (entityName o) <$>
                                          compareObservations mergedOptions content
                                                              existingObservation)
                                     (observations e))
                             (contents o)
                end)
             (default [] (dataObservations data)) in
  let checkExisting :=
    checkExistingGraph mergedOptions || default false (dataCheckExistingGraph data) in
  let existingEntities :=
    if checkExisting then laterPairs (compareEntities mergedOptions) (entities graph)
    else [] in
  let existingRelations :=
    if checkExisting then laterPairs (compareRelations mergedOptions) (relations graph)
    else [] in
  ret {| duplicateEntities := duplicateEntities;
         duplicateRelations := duplicateRelations;
         duplicateObservations := duplicateObservations;
         existingDuplicateEntities := existingEntities;
         existingDuplicateRelations := existingRelations;
         statistics :=
           {| totalDuplicates := length duplicateEntities + length duplicateRelations +
                                 length duplicateObservations + length existingEntities +
                                 length existingRelations;
              entityDuplicates := length duplicateEntities;
              relationDuplicates := length duplicateRelations;
              observationDuplicates := length duplicateObservations;
              existingEntityDuplicates := length existingEntities;
              existingRelationDuplicates := length existingRelations |} |}.

(** ** Notions the properties are stated with *)

(** The graph in the store: what [readGraph] returns. *)
Definition storedGraph (m : Manager) : KnowledgeGraph :=
  match outcome readGraph m with
  | Returned graph => graph
  | Thrown _ => emptyGraph
  end.

(** An entity and a relation as [loadGraph] returns them: with the
    discriminator of their line. *)
Definition loadedEntity (e : Entity) : Entity :=
  {| e_type := Some entity; name := name e; entityType := entityType e;
     observations := observations e |}.

Definition loadedRelation (r : Relation) : Relation :=
  {| r_type := Some relation; from := from r; to := to r;
     relationType := relationType r |}.

(** The lines [saveGraph] writes for a graph. *)
Definition linesOf (graph : KnowledgeGraph) : list Line :=
  map stringifyEntity (entities graph) ++ map stringifyRelation (relations graph).

(** The graph that the lines of a file spell. *)
Definition parseLines (lines : list Line) : KnowledgeGraph :=
  fold_left pushItem lines emptyGraph.


(** The message of the error of [addObservations]:
    [`Entity with name ${o.entityName} not found`]. *)
Definition notFound (n : string) : string := "Entity with name " +:+ n +:+ " not found".

(** The state [rebuildIndexes] leaves. *)
Definition rebuilt (graph : KnowledgeGraph) (m : Manager) : Manager :=
  {| file := file m;
     entityIndex := buildIndex (entityDocuments graph);
     observationIndex := buildIndex (observationDocuments graph) |}.

(** Every character of the string is in the class. *)
Fixpoint allChars (p : ascii -> bool) (s : string) : bool :=
  match s with
  | EmptyString => true
  | String c s' => p c && allChars p s'
  end.

(** The entities that match a query: those [searchNodes] would return if
    the two index lookups had no limit. *)
Definition matchingEntities (query : string) (graph : KnowledgeGraph) : list Entity :=
  let entityMatches := FlexSearch.matches (buildIndex (entityDocuments graph)) query in
  let observationMatches :=
    FlexSearch.matches (buildIndex (observationDocuments graph)) query in
  filterIndexed (fun _ index =>
                   includes index (entityMatches ++ observationEntityIndexes observationMatches))
                (entities graph).



(** The reading of the limit of 100 as a bound on the whole result: with
    more than 100 matching entities, some matching entity is not
    returned. *)
Definition omissionBeyond100 : Prop :=
  forall (m : Manager) (query : string) (result : KnowledgeGraph),
    outcome (searchNodes query) m = Returned result ->
    100 < length (matchingEntities query (storedGraph m)) ->
    exists e, e ∈ matchingEntities query (storedGraph m) /\ e ∉ entities result.

(** ** Example data *)

(** The entity of the scenarios of the specification. *)
Definition alice : Entity :=
  {| e_type := None; name := "Alice"; entityType := "person";
     observations := ["likes tea"] |}.

(** A second object with the same name. *)
Definition aliceAgain : Entity :=
  {| e_type := None; name := "Alice"; entityType := "cat"; observations := [] |}.

Definition bob : Entity :=
  {| e_type := None; name := "Bob"; entityType := "person"; observations := [] |}.

Definition aliceKnowsBob : Relation :=
  {| r_type := None; from := "Alice"; to := "Bob"; relationType := "knows" |}.

(** The candidate of the third scenario. *)
Definition alise : Entity :=
  {| e_type := None; name := "Alise"; entityType := "person"; observations := [] |}.

(** The store after [createEntities([alice])] on a new manager. *)
Definition aliceStore : Manager := exec (createEntities [alice]) knowledgeGraphManager.

(** The store of the second scenario: Alice, Bob, and Alice knows Bob. *)
Definition aliceBobStore : Manager :=
  exec (createEntities [alice; bob] ;;; createRelations [aliceKnowsBob])
       knowledgeGraphManager.

(** An entity with two keywords in its name. *)
Definition aliceSmith : Entity :=
  {| e_type := None; name := "alice smith"; entityType := "person"; observations := [] |}.

Definition aliceSmithStore : Manager :=
  exec (createEntities [aliceSmith]) knowledgeGraphManager.

(** A store of 101 entities that all match the query ["tea"]: the first by
    its name, the hundred others by their observation. *)
Definition teaDrinker (n : nat) : Entity :=
  {| e_type := None; name := "guest" +:+ JS.of_nat n; entityType := "person";
     observations := ["tea"] |}.

Definition teaHouse : Manager :=
  exec (createEntities
          ({| e_type := None; name := "tea"; entityType := "drink"; observations := [] |}
             :: map teaDrinker (seq 1 100)))
       knowledgeGraphManager.

(** A store of 201 entities that match the query ["tea"] by their
    observation. *)
Definition teaFestival : Manager :=
  exec (createEntities (map teaDrinker (seq 1 201))) knowledgeGraphManager.

(** The candidates of a call of [findDuplicates] with entities only. *)
Definition entityCandidates (es : list Entity) : DuplicateData :=
  {| dataEntities := Some es; dataRelations := None; dataObservations := None;
     dataCheckExistingGraph := None |}.

(** [{ preset: "loose" }] *)
Definition looseOptions : Options.t :=
  {| Options.entityNameSimilarityThreshold := None;
     Options.considerEntityType := None;
     Options.observationSimilarityThreshold := None;
     Options.checkExistingGraph := None;
     Options.semanticMatchingEnabled := None;
     Options.preset := Some loose |}.

(** [{ entityNameSimilarityThreshold: 1.0, semanticMatchingEnabled: true }] *)
Definition exactSemanticOptions : Options.t :=
  {| Options.entityNameSimilarityThreshold := Some 1%float;
     Options.considerEntityType := None;
     Options.observationSimilarityThreshold := None;
     Options.checkExistingGraph := None;
     Options.semanticMatchingEnabled := Some true;
     Options.preset := None |}.

(** A request of [batchCreate] with entities only. *)
Definition entityBatch (es : list Entity) : BatchData :=
  {| batchEntities := Some es; batchRelations := None; batchObservations := None |}.

(** The merged options with another threshold for entities. *)
Definition atThreshold (threshold : float) (o : MergedOptions) : MergedOptions :=
  {| entityNameSimilarityThreshold := threshold;
     considerEntityType := considerEntityType o;
     observationSimilarityThreshold := observationSimilarityThreshold o;
     checkExistingGraph := checkExistingGraph o;
     semanticMatchingEnabled := semanticMatchingEnabled o;
     preset := preset o |}.

(** ** Further notions *)

(** [graph.entities.find(e => e.name === n)]: the first entity of that
    name. *)
Definition findEntity (n : string) (graph : KnowledgeGraph) : option Entity :=
  snd <$> list_find (fun e => name e = n) (entities graph).

(** The indexes of the manager are those of the stored graph. *)
Definition indexesCurrent (m : Manager) : Prop :=
  entityIndex m = buildIndex (entityDocuments (storedGraph m)) /\
  observationIndex m = buildIndex (observationDocuments (storedGraph m)).

(** An entity as [addObservations] can leave it: the same, with further
    observations after those it had. *)
Definition extends (e e' : Entity) : Prop :=
  e_type e' = e_type e /\ name e' = name e /\ entityType e' = entityType e /\
  observations e `prefix_of` observations e'.

(** An entity as [deleteObservations(deletions)] can leave it: the same,
    with some of its observations taken out, each of them named by a
    deletion for the name of the entity. *)
Definition reduces (deletions : list Deletion) (e e' : Entity) : Prop :=
  e_type e' = e_type e /\ name e' = name e /\ entityType e' = entityType e /\
  observations e' `sublist_of` observations e /\
  forall o, o ∈ observations e -> o ∉ observations e' ->
            exists d, d ∈ deletions /\ deletionEntityName d = name e /\
                      o ∈ deletionObservations d.

(** The result [addObservations] gives for a request that adds nothing. *)
Definition nothingAdded (o : ObservationInput) : ObservationResult :=
  {| resultEntityName := entityName o; addedObservations := [] |}.

(** The entities and the relations [batchCreate] and the calls in sequence
    append. *)
Definition newEntitiesOf (graph : KnowledgeGraph) (es : list Entity) : list Entity :=
  List.filter (fun e => negb (some (fun existingEntity =>
                                      bool_decide (name existingEntity = name e))
                                   (entities graph))) es.

Definition newRelationsOf (graph : KnowledgeGraph) (rs : list Relation) : list Relation :=
  List.filter (fun r => negb (some (fun existingRelation =>
                                      sameRelation existingRelation r)
                                   (relations graph))) rs.

(** The three calls that [batchCreate] stands for, one after the other, a
    property that the request leaves out being an empty array. *)
Definition createInSequence (data : BatchData) : Async (list ObservationResult) :=
  createEntities (default [] (batchEntities data)) ;;;
  createRelations (default [] (batchRelations data)) ;;;
  addObservations (default [] (batchObservations data)).

(** What the entries of a report of [findDuplicates] say of their pair:
    the score has passed the threshold, the match is "exact" for equal
    names (for relations, equal ends and types; for observations, equal
    texts), and the duplicate is "structural" for equal names and
    types. *)
Definition entityEntry (o : MergedOptions) (d : Duplicate Entity) : Prop :=
  geb (similarityScore d) (entityNameSimilarityThreshold o) = true /\
  (matchType d = "exact" <-> name (candidate d) = name (existing d)) /\
  (duplicateType d = "structural" <->
   name (candidate d) = name (existing d) /\
   entityType (candidate d) = entityType (existing d)).

Definition relationEntry (o : MergedOptions) (d : Duplicate Relation) : Prop :=
  geb (similarityScore d) (entityNameSimilarityThreshold o) = true /\
  (matchType d = "exact" <-> sameRelation (candidate d) (existing d) = true) /\
  (duplicateType d = "structural" <-> sameRelation (candidate d) (existing d) = true).

Definition observationEntry (o : MergedOptions) (d : Duplicate string) : Prop :=
  geb (similarityScore d) (observationSimilarityThreshold o) = true /\
  (matchType d = "exact" <-> candidate d = existing d) /\
  (duplicateType d = "structural" <-> candidate d = existing d).

(** A string of ASCII characters.  On these the case mapping, the white
    space and the character classes of the model are those of
    JavaScript. *)
Definition isAscii (s : string) : bool :=
  allChars (fun c => (JS.code c <? 128)%nat) s.




(** ** Further example data *)

(** The store after [createEntities([alice, alice])] on a new manager: the
    name is stored twice. *)
Definition twoAlicesStore : Manager :=
  exec (createEntities [alice; alice]) knowledgeGraphManager.

(** [{ checkExistingGraph: true }], as the argument [data]. *)
Definition existingGraphCheck : DuplicateData :=
  {| dataEntities := None; dataRelations := None; dataObservations := None;
     dataCheckExistingGraph := Some true |}.

(** A request with one relation, and a request with one observation. *)
Definition relationCandidate (r : Relation) : DuplicateData :=
  {| dataEntities := None; dataRelations := Some [r]; dataObservations := None;
     dataCheckExistingGraph := None |}.

Definition observationCandidate (o : ObservationInput) : DuplicateData :=
  {| dataEntities := None; dataRelations := None; dataObservations := Some [o];
     dataCheckExistingGraph := None |}.

Definition aliceLikesTea : ObservationInput :=
  {| entityName := "Alice"; contents := ["likes tea"] |}.

Definition aliceLikesTeaAndJam : ObservationInput :=
  {| entityName := "Alice"; contents := ["likes tea"; "likes jam"] |}.

(** * Properties *)

(** ** The store: load and save *)

Lemma loadGraph_run (m : Manager) :
  loadGraph m = (Returned (from_option parseLines emptyGraph (file m)),
                 rebuilt (from_option parseLines emptyGraph (file m)) m).
Proof.
  destruct m as [[lines|] ei oi]; reflexivity.
Qed.

Lemma saveGraph_run (graph : KnowledgeGraph) (m : Manager) :
  saveGraph graph m =
    (Returned tt,
     {| file := Some (linesOf graph);
        entityIndex := buildIndex (entityDocuments graph);
        observationIndex := buildIndex (observationDocuments graph) |}).
Proof. reflexivity. Qed.

Lemma storedGraph_file (m : Manager) :
  storedGraph m = from_option parseLines emptyGraph (file m).
Proof. unfold storedGraph, outcome, readGraph. rewrite loadGraph_run. reflexivity. Qed.

Lemma fold_pushItem (lines : list Line) (graph : KnowledgeGraph) :
  fold_left pushItem lines graph =
    {| entities := entities graph ++ entities (fold_left pushItem lines emptyGraph);
       relations := relations graph ++ relations (fold_left pushItem lines emptyGraph) |}.
Proof.
  revert graph. induction lines as [|l lines IH]; intros graph; simpl.
  - destruct graph; simpl. by rewrite !app_nil_r.
  - rewrite IH. rewrite (IH (pushItem emptyGraph l)).
    destruct l; simpl; by rewrite <- ?app_assoc.
Qed.

Lemma parseLines_app (l1 l2 : list Line) :
  parseLines (l1 ++ l2) =
    {| entities := entities (parseLines l1) ++ entities (parseLines l2);
       relations := relations (parseLines l1) ++ relations (parseLines l2) |}.
Proof. unfold parseLines. rewrite fold_left_app. apply fold_pushItem. Qed.

Lemma parseLines_entities (es : list Entity) :
  parseLines (map stringifyEntity es) =
    {| entities := map loadedEntity es; relations := [] |}.
Proof.
  induction es as [|e es IH]; [reflexivity|].
  change (map stringifyEntity (e :: es)) with ([stringifyEntity e] ++ map stringifyEntity es).
  rewrite parseLines_app, IH. reflexivity.
Qed.

Lemma parseLines_relations (rs : list Relation) :
  parseLines (map stringifyRelation rs) =
    {| entities := []; relations := map loadedRelation rs |}.
Proof.
  induction rs as [|r rs IH]; [reflexivity|].
  change (map stringifyRelation (r :: rs))
    with ([stringifyRelation r] ++ map stringifyRelation rs).
  rewrite parseLines_app, IH. reflexivity.
Qed.

(** Loading what [saveGraph] wrote gives the same entities and relations in
    the same order, each with its discriminator. *)
Lemma parseLines_linesOf (graph : KnowledgeGraph) :
  parseLines (linesOf graph) =
    {| entities := map loadedEntity (entities graph);
       relations := map loadedRelation (relations graph) |}.
Proof.
  unfold linesOf. rewrite parseLines_app, parseLines_entities, parseLines_relations.
  simpl. by rewrite app_nil_r.
Qed.


Lemma linesOf_loaded (graph : KnowledgeGraph) :
  linesOf {| entities := map loadedEntity (entities graph);
             relations := map loadedRelation (relations graph) |} = linesOf graph.
Proof.
  unfold linesOf; simpl. rewrite !map_map. reflexivity.
Qed.

(** The indexes read the name, the type and the observations only. *)
Lemma entityDocuments_loaded (es : list Entity) (rs rs' : list Relation) :
  entityDocuments {| entities := map loadedEntity es; relations := rs |} =
  entityDocuments {| entities := es; relations := rs' |}.
Proof.
  unfold entityDocuments; simpl.
  change (map loadedEntity es) with (loadedEntity <$> es).
  rewrite imap_fmap. by apply imap_ext.
Qed.

Lemma observationDocuments_loaded (es : list Entity) (rs rs' : list Relation) :
  observationDocuments {| entities := map loadedEntity es; relations := rs |} =
  observationDocuments {| entities := es; relations := rs' |}.
Proof.
  unfold observationDocuments; simpl.
  change (map loadedEntity es) with (loadedEntity <$> es).
  rewrite imap_fmap. reflexivity.
Qed.

Lemma createEntities_run (es : list Entity) (m : Manager) :
  createEntities es m =
    let graph := storedGraph m in
    let newEntities :=
      List.filter (fun e => negb (some (fun existingEntity =>
                                          bool_decide (name existingEntity = name e))
                                       (entities graph))) es in
    (Returned newEntities,
     exec (saveGraph {| entities := entities graph ++ newEntities;
                        relations := relations graph |}) m).
Proof.
  unfold createEntities, bind. rewrite loadGraph_run, storedGraph_file.
  reflexivity.
Qed.

(** C4.  Round trip: [saveGraph(G)], then [loadGraph], then [saveGraph] of
    the loaded graph writes the file that [saveGraph(G)] wrote: the records
    of the entities of [G] in their order, then the records of its
    relations in theirs.  It holds for every graph, so for those with
    unique entity names. *)
Theorem save_load_save (G : KnowledgeGraph) (m : Manager) :
  let saved := exec (saveGraph G) m in
  file saved = Some (map stringifyEntity (entities G) ++
                     map stringifyRelation (relations G)) /\
  outcome loadGraph saved =
    Returned {| entities := map loadedEntity (entities G);
                relations := map loadedRelation (relations G) |} /\
  file (exec (graph <- loadGraph ;; saveGraph graph) saved) = file saved.
Proof.
  cbv zeta. split; [reflexivity|].
  unfold exec, outcome, bind. rewrite saveGraph_run, loadGraph_run.
  cbn [file from_option fst snd]. rewrite parseLines_linesOf.
  split; [reflexivity|].
  rewrite saveGraph_run. cbn [file snd]. by rewrite linesOf_loaded.
Qed.

Lemma storedGraph_discriminators (m : Manager) :
  Forall (fun e => e_type e = Some entity) (entities (storedGraph m)) /\
  Forall (fun r => r_type r = Some relation) (relations (storedGraph m)).
Proof.
  rewrite storedGraph_file.
  destruct (file m) as [lines|]; simpl; [|by split].
  unfold parseLines.
  assert (forall graph,
            Forall (fun e => e_type e = Some entity) (entities graph) ->
            Forall (fun r => r_type r = Some relation) (relations graph) ->
            Forall (fun e => e_type e = Some entity)
                   (entities (fold_left pushItem lines graph)) /\
            Forall (fun r => r_type r = Some relation)
                   (relations (fold_left pushItem lines graph))) as H.
  { induction lines as [|l lines IH]; intros graph He Hr; [by split|].
    simpl. apply IH; destruct l; simpl; try done;
      apply Forall_app; split; try done; by repeat constructor. }
  apply H; constructor.
Qed.

(** C10.  Every entity that [readGraph] returns has the property [type]
    with the value ["entity"], and every relation has it with the value
    ["relation"]: [loadGraph] pushes the parsed line as it is. *)
Theorem readGraph_keeps_discriminator (m : Manager) :
  exists graph,
    outcome readGraph m = Returned graph /\
    Forall (fun e => e_type e = Some entity) (entities graph) /\
    Forall (fun r => r_type r = Some relation) (relations graph).
Proof.
  exists (storedGraph m). split; [|apply storedGraph_discriminators].
  unfold storedGraph, outcome, readGraph. by rewrite loadGraph_run.
Qed.

(** C7.  Cascade: after [deleteEntities(N)] no relation of the stored graph
    starts or ends at a name of [N] (and no entity has a name of [N]). *)
Theorem deleteEntities_cascade (N : list string) (m : Manager) :
  let graph := storedGraph (exec (deleteEntities N) m) in
  Forall (fun r => (from r ∉ N) /\ (to r ∉ N)) (relations graph) /\
  Forall (fun e => name e ∉ N) (entities graph).
Proof.
  cbv zeta. unfold deleteEntities, exec, bind. rewrite loadGraph_run, saveGraph_run.
  rewrite storedGraph_file. cbn [file from_option fst snd].
  rewrite parseLines_linesOf. cbn [entities relations].
  split; apply Forall_forall; intros x Hx.
  - apply list_elem_of_fmap in Hx as (r & -> & Hr).
    apply list_elem_of_In, filter_In in Hr as [_ Hr].
    apply andb_true_iff in Hr as [H1 H2].
    apply negb_true_iff, bool_decide_eq_false in H1, H2. by split.
  - apply list_elem_of_fmap in Hx as (e & -> & He).
    apply list_elem_of_In, filter_In in He as [_ He].
    by apply negb_true_iff, bool_decide_eq_false in He.
Qed.

(** ** Creation of entities *)

Lemma some_name_spec (n : string) (es : list Entity) :
  some (fun existingEntity => bool_decide (name existingEntity = n)) es = true <->
  n ∈ map name es.
Proof.
  unfold some. rewrite existsb_exists. split.
  - intros (e & He & Hn). apply bool_decide_eq_true in Hn as <-.
    apply list_elem_of_fmap. exists e. split; [done|]. by apply list_elem_of_In.
  - intros (e & -> & He)%list_elem_of_fmap. exists e.
    split; [by apply list_elem_of_In|]. by apply bool_decide_eq_true.
Qed.

Lemma map_name_loadedEntity (es : list Entity) :
  map name (map loadedEntity es) = map name es.
Proof. rewrite map_map. reflexivity. Qed.

Lemma storedGraph_saveGraph (graph : KnowledgeGraph) (m : Manager) :
  storedGraph (exec (saveGraph graph) m) =
    {| entities := map loadedEntity (entities graph);
       relations := map loadedRelation (relations graph) |}.
Proof.
  rewrite storedGraph_file. unfold exec. rewrite saveGraph_run.
  cbn [file from_option snd]. apply parseLines_linesOf.
Qed.

(** What [loadGraph] returns is its own reload. *)
Lemma storedGraph_loaded (m : Manager) :
  map loadedEntity (entities (storedGraph m)) = entities (storedGraph m) /\
  map loadedRelation (relations (storedGraph m)) = relations (storedGraph m).
Proof.
  destruct (storedGraph_discriminators m) as [He Hr].
  split.
  - induction He as [|e es H _ IH]; [done|]. simpl. f_equal; [|done].
    destruct e; simpl in *; by subst.
  - induction Hr as [|r rs H _ IH]; [done|]. simpl. f_equal; [|done].
    destruct r; simpl in *; by subst.
Qed.

Lemma filter_nil_iff {A} (p : A -> bool) (l : list A) :
  (forall x, x ∈ l -> p x = false) -> List.filter p l = [].
Proof.
  induction l as [|x l IH]; intros H; [done|]. simpl.
  rewrite (H x) by constructor. apply IH. intros y Hy. apply H. by constructor.
Qed.

Lemma filter_sublist {A} (p : A -> bool) (l : list A) : List.filter p l `sublist_of` l.
Proof.
  induction l as [|x l IH]; simpl; [constructor|].
  destruct (p x); by constructor.
Qed.

(** Saving a graph that was loaded, or the graph it was loaded from, leaves
    the same state. *)
Lemma exec_saveGraph_loaded (es : list Entity) (rs : list Relation) (m m' : Manager) :
  exec (saveGraph {| entities := map loadedEntity es;
                     relations := map loadedRelation rs |}) m =
  exec (saveGraph {| entities := es; relations := rs |}) m'.
Proof.
  unfold exec. rewrite !saveGraph_run. cbn [snd].
  pose proof (linesOf_loaded {| entities := es; relations := rs |}) as H.
  cbn [entities relations] in H. rewrite H.
  by rewrite (entityDocuments_loaded es _ rs), (observationDocuments_loaded es _ rs).
Qed.



(** ** Observations *)

Lemma addObservation_found (graph : KnowledgeGraph) (o : ObservationInput) :
  entityName o ∈ map name (entities graph) ->
  exists r graph',
    addObservation graph o = Returned (r, graph') /\
    map name (entities graph') = map name (entities graph).
Proof.
  intros Hin. unfold addObservation.
  destruct (list_find _ _) as [[i e]|] eqn:Hfind.
  - apply list_find_Some in Hfind as (Hi & Hname & _).
    eexists _, _. split; [reflexivity|]. cbn [entities].
    change (map name ?l) with (name <$> l).
    rewrite list_fmap_insert. apply list_insert_id.
    rewrite list_lookup_fmap, Hi. reflexivity.
  - exfalso. apply list_find_None in Hfind.
    apply list_elem_of_fmap in Hin as (e & He & Hin).
    rewrite Forall_forall in Hfind. by apply (Hfind e).
Qed.

Lemma addObservation_missing (graph : KnowledgeGraph) (o : ObservationInput) :
  entityName o ∉ map name (entities graph) ->
  addObservation graph o = Thrown (notFound (entityName o)).
Proof.
  intros Hout. unfold addObservation.
  destruct (list_find _ _) as [[i e]|] eqn:Hfind; [|reflexivity].
  exfalso. apply Hout. apply list_find_Some in Hfind as (Hi & Hname & _).
  apply list_elem_of_fmap. exists e. split; [done|].
  by eapply list_elem_of_lookup_2.
Qed.

Lemma mapObservations_missing (os : list ObservationInput) (graph : KnowledgeGraph) :
  Exists (fun o => entityName o ∉ map name (entities graph)) os ->
  exists missing,
    missing ∈ map entityName os /\
    (missing ∉ map name (entities graph)) /\
    mapObservations graph os = Thrown (notFound missing).
Proof.
  revert graph. induction os as [|o os IH]; intros graph Hex.
  - by apply Exists_nil in Hex.
  - destruct (decide (entityName o ∈ map name (entities graph))) as [Hin|Hout].
    + apply Exists_cons in Hex as [Hex|Hex]; [done|].
      destruct (addObservation_found graph o Hin) as (r & graph' & Hrun & Hnames).
      destruct (IH graph') as (missing & H1 & H2 & H3).
      { by rewrite Hnames. }
      exists missing. split; [by apply list_elem_of_further|].
      split; [by rewrite <- Hnames|].
      simpl. by rewrite Hrun, H3.
    + exists (entityName o). split; [by constructor|]. split; [done|].
      simpl. by rewrite addObservation_missing.
Qed.

(** C5.  When a name of the request of [addObservations] is the name of no
    entity of the stored graph, the call throws the error that names such a
    missing entity, and the file is as it was: the stored graph a later load
    sees has none of the observations of the request. *)
Theorem addObservations_missing_entity (os : list ObservationInput) (m : Manager) :
  Exists (fun o => entityName o ∉ map name (entities (storedGraph m))) os ->
  exists missing,
    missing ∈ map entityName os /\
    (missing ∉ map name (entities (storedGraph m))) /\
    outcome (addObservations os) m =
      Thrown ("Entity with name " +:+ missing +:+ " not found") /\
    file (exec (addObservations os) m) = file m /\
    storedGraph (exec (addObservations os) m) = storedGraph m.
Proof.
  intros Hex.
  destruct (mapObservations_missing os (storedGraph m) Hex) as (missing & H1 & H2 & H3).
  exists missing. split; [done|]. split; [done|].
  assert (addObservations os m =
            (Thrown (notFound missing), rebuilt (storedGraph m) m)) as Hrun.
  { unfold addObservations, bind. rewrite loadGraph_run, <- storedGraph_file.
    by rewrite H3. }
  unfold outcome, exec. rewrite Hrun. cbn [fst snd].
  split; [reflexivity|]. split; [reflexivity|].
  by rewrite !storedGraph_file.
Qed.

(** ** Strings *)

Section StringFacts.

Lemma trimStart_blank (s : string) :
  allChars JS.is_space s = true -> JS.trimStart s = EmptyString.
Proof.
  induction s as [|c s IH]; [done|]. simpl.
  intros [Hc Hs]%andb_true_iff. rewrite Hc. by apply IH.
Qed.

Lemma trim_blank (s : string) :
  allChars JS.is_space s = true -> JS.trim s = EmptyString.
Proof. intros H. unfold JS.trim. by rewrite trimStart_blank. Qed.


End StringFacts.






(** ** The search index *)

Section SearchFacts.

Context {Id : Type} `{EqDecision Id}.

Lemma search_length (index : FlexSearch.Index Id) (query : string) (limit : nat) :
  0 < limit -> length (FlexSearch.search index query limit) <= limit.
Proof.
  intros Hl. unfold FlexSearch.search.
  destruct limit as [|limit]; [lia|]. simpl Nat.eqb. cbv iota.
  rewrite length_take. lia.
Qed.

End SearchFacts.


Lemma filterFrom_length {A} (f : nat -> bool) (l : list A) (start : nat) :
  length (filterFrom (fun _ index => f index) start l) =
  length (List.filter f (seq start (length l))).
Proof.
  revert start. induction l as [|y l IH]; intros start; [done|]. simpl.
  destruct (f start); simpl; by rewrite IH.
Qed.

Lemma filterFrom_impl {A} (p q : A -> nat -> bool) (l : list A) (start : nat) :
  (forall x i, p x i = true -> q x i = true) ->
  filterFrom p start l `sublist_of` filterFrom q start l.
Proof.
  intros Himpl. revert start. induction l as [|y l IH]; intros start; simpl; [done|].
  destruct (p y start) eqn:Hp.
  - rewrite (Himpl _ _ Hp). by constructor.
  - destruct (q y start); [constructor|]; apply IH.
Qed.

(** [filter((_, index) => set.has(index))] keeps at most as many elements
    as the set has. *)
Lemma filterIndexed_length {A} (indexes : list nat) (l : list A) :
  length (filterIndexed (fun _ index => includes index indexes) l) <= length indexes.
Proof.
  unfold filterIndexed. rewrite filterFrom_length.
  apply submseteq_length, NoDup_submseteq.
  - apply NoDup_ListNoDup, List.NoDup_filter, NoDup_ListNoDup, NoDup_seq.
  - intros i Hi. apply list_elem_of_In, filter_In in Hi as [_ Hi].
    by apply bool_decide_eq_true in Hi.
Qed.

Lemma searchNodes_run (query : string) (m : Manager) :
  searchNodes query m =
    let graph := storedGraph m in
    (Returned
       (if bool_decide (JS.trim query = EmptyString) then
          {| entities := []; relations := [] |}
        else
          let allMatchedIndexes :=
            FlexSearch.search (buildIndex (entityDocuments graph)) query 100 ++
            observationEntityIndexes
              (FlexSearch.search (buildIndex (observationDocuments graph)) query 100) in
          let filteredEntities :=
            filterIndexed (fun _ index => includes index allMatchedIndexes)
                          (entities graph) in
          {| entities := filteredEntities;
             relations := relationsBetween (map name filteredEntities) (relations graph) |}),
     rebuilt graph m).
Proof.
  unfold searchNodes, bind. rewrite loadGraph_run, <- storedGraph_file.
  cbv zeta. by destruct (bool_decide (JS.trim query = EmptyString)).
Qed.

Lemma omap_length_le {A B} (f : A -> option B) (l : list A) :
  length (omap f l) <= length l.
Proof.
  induction l as [|x l IH]; [done|].
  change (omap f (x :: l)) with (match f x with Some y => y :: omap f l | None => omap f l end).
  destruct (f x); simpl; lia.
Qed.

Lemma elem_of_take_full {A} (x : A) (n : nat) (l : list A) : x ∈ take n l -> x ∈ l.
Proof. intros (i & Hi & _)%elem_of_take. by eapply list_elem_of_lookup_2. Qed.

(** ** Search *)



(** C8.  A query that is empty or has blanks only gets the empty result,
    whatever the store holds. *)
Theorem searchNodes_blank_query (query : string) (m : Manager) :
  allChars JS.is_space query = true ->
  outcome (searchNodes query) m = Returned {| entities := []; relations := [] |}.
Proof.
  intros Hblank. unfold outcome. rewrite searchNodes_run. cbv zeta. cbn [fst].
  by rewrite (trim_blank _ Hblank).
Qed.

(** C9, as the code has it.  [searchNodes] takes at most 100 ids from each
    of the two indexes, so it returns at most 200 entities, all of them
    entities that match the query; when more than 200 entities match, some
    of them are not returned.  (With 101 to 200 matching entities all of
    them can be returned.) *)
Theorem searchNodes_bound (query : string) (m : Manager) :
  let entityIndex' := entityIndex (exec loadGraph m) in
  let observationIndex' := observationIndex (exec loadGraph m) in
  length (FlexSearch.search entityIndex' query 100) <= 100 /\
  length (FlexSearch.search observationIndex' query 100) <= 100 /\
  exists result,
    outcome (searchNodes query) m = Returned result /\
    length (entities result) <= 200 /\
    entities result `sublist_of` matchingEntities query (storedGraph m) /\
    (200 < length (matchingEntities query (storedGraph m)) ->
     length (entities result) < length (matchingEntities query (storedGraph m))).
Proof.
  cbv zeta. split; [apply search_length; lia|]. split; [apply search_length; lia|].
  unfold outcome. rewrite searchNodes_run. cbv zeta. cbn [fst].
  eexists. split; [reflexivity|].
  destruct (bool_decide (JS.trim query = EmptyString)); cbn [entities].
  { split; [simpl; lia|]. split; [apply sublist_nil_l|]. simpl. lia. }
  set (g := storedGraph m).
  assert (length (filterIndexed
            (fun _ index =>
               includes index
                 (FlexSearch.search (buildIndex (entityDocuments g)) query 100 ++
                  observationEntityIndexes
                    (FlexSearch.search (buildIndex (observationDocuments g)) query 100)))
            (entities g)) <= 200) as Hbound.
  { etrans; [apply filterIndexed_length|]. rewrite length_app.
    pose proof (search_length (buildIndex (entityDocuments g)) query 100).
    pose proof (search_length (buildIndex (observationDocuments g)) query 100).
    pose proof (omap_length_le (fun id => JS.parseInt (JS.before "-" id))
                  (FlexSearch.search (buildIndex (observationDocuments g)) query 100)).
    unfold observationEntityIndexes. lia. }
  split; [done|]. split; [|lia].
  apply filterFrom_impl. intros _ index Hin.
  apply bool_decide_eq_true in Hin. apply bool_decide_eq_true.
  apply elem_of_app in Hin as [Hin|Hin]; apply elem_of_app.
  - left. by eapply elem_of_take_full.
  - right. apply list_elem_of_omap in Hin as (id & Hid & Hparse).
    apply list_elem_of_omap. exists id. split; [|done]. by eapply elem_of_take_full.
Qed.



(** A use of the theorem of C8: a query of three blanks, on a store that is
    not empty. *)
Lemma searchNodes_blank_query_witness :
  outcome (searchNodes "   ") aliceStore = Returned {| entities := []; relations := [] |}.
Proof. apply searchNodes_blank_query. reflexivity. Defined.

(** C9: the claim as worded fails.  Of the 101 entities of this store, one
    matches the query "tea" by its name and a hundred by their observation:
    more than 100 entities match, and [searchNodes] returns them all. *)
Lemma omissionBeyond100_fails : ~ omissionBeyond100.
Proof.
  intros H.
  destruct (H teaHouse "tea" (match outcome (searchNodes "tea") teaHouse with
                              | Returned result => result
                              | Thrown _ => emptyGraph
                              end)) as (e & Hin & Hout).
  - by vm_compute.
  - vm_compute. lia.
  - apply Hout. revert Hin.
    assert (matchingEntities "tea" (storedGraph teaHouse) =
            entities (match outcome (searchNodes "tea") teaHouse with
                      | Returned result => result
                      | Thrown _ => emptyGraph
                      end)) as -> by (by vm_compute).
    done.
Qed.

(** A use of the theorem of C9: 201 entities match the query "tea", and
    fewer are returned. *)
Lemma searchNodes_bound_witness :
  exists result,
    outcome (searchNodes "tea") teaFestival = Returned result /\
    length (entities result) < length (matchingEntities "tea" (storedGraph teaFestival)).
Proof.
  destruct (searchNodes_bound "tea" teaFestival) as (_ & _ & result & Hrun & _ & _ & Hlt).
  exists result. split; [done|]. apply Hlt. vm_compute. lia.
Defined.

(** A use of the theorem of C5: the request names Alice, who is stored, and
    then Zed, who is not. *)
Lemma addObservations_missing_entity_witness :
  exists missing,
    missing ∈ ["Alice"; "Zed"] /\
    (missing ∉ ["Alice"]) /\
    outcome (addObservations [{| entityName := "Alice"; contents := ["drinks coffee"] |};
                              {| entityName := "Zed"; contents := ["sleeps"] |}])
            aliceStore =
      Thrown ("Entity with name " +:+ missing +:+ " not found") /\
    file (exec (addObservations
                  [{| entityName := "Alice"; contents := ["drinks coffee"] |};
                   {| entityName := "Zed"; contents := ["sleeps"] |}])
               aliceStore) = file aliceStore /\
    storedGraph (exec (addObservations
                         [{| entityName := "Alice"; contents := ["drinks coffee"] |};
                          {| entityName := "Zed"; contents := ["sleeps"] |}])
                      aliceStore) = storedGraph aliceStore.
Proof.
  apply (addObservations_missing_entity
           [{| entityName := "Alice"; contents := ["drinks coffee"] |};
            {| entityName := "Zed"; contents := ["sleeps"] |}] aliceStore).
  apply Exists_cons_tl, Exists_cons_hd. vm_compute.
  intros H. by repeat (apply elem_of_cons in H as [H|H]; [done|]); apply elem_of_nil in H.
Defined.



(** ** Where the code departs from the specification *)

(** C1.  Two new entities of one name in one request are both inserted: the
    filter of [createEntities] and of [batchCreate] compares each entity of
    the request with the entities of the loaded graph only, not with the
    other entities of the request.  The stored graph then has the name
    twice. *)
Theorem createEntities_same_name_twice :
  outcome (createEntities [alice; aliceAgain]) knowledgeGraphManager =
    Returned [alice; aliceAgain] /\
  map name (entities (storedGraph
                        (exec (createEntities [alice; aliceAgain]) knowledgeGraphManager))) =
    ["Alice"; "Alice"] /\
  map name (entities (storedGraph
                        (exec (batchCreate (entityBatch [alice; aliceAgain]))
                              knowledgeGraphManager))) =
    ["Alice"; "Alice"] /\
  ~ NoDup (map name (entities (storedGraph
                                 (exec (createEntities [alice; aliceAgain])
                                       knowledgeGraphManager)))).
Proof.
  split; [by vm_compute|]. split; [by vm_compute|]. split; [by vm_compute|].
  assert (map name (entities (storedGraph
                                (exec (createEntities [alice; aliceAgain])
                                      knowledgeGraphManager))) = ["Alice"; "Alice"])
    as -> by (by vm_compute).
  intros Hdup. apply NoDup_cons in Hdup as [Hnotin _]. apply Hnotin. by left.
Qed.

(** C2.  With semantic matching the score of an entity against a stored
    entity of the same name and type is not always 1: for the name "alice
    smith", of two keywords, the cosine of the keyword vector with itself is
    computed as 0.9999999999999998, and so is the score.  The pair is
    reported under the preset [loose] with that score, and it is not
    reported at all at the threshold 1.0. *)
Theorem findDuplicates_identical_semantic :
  calculateTFIDFSimilarity "alice smith" "alice smith" = 0.99999999999999978%float /\
  duplicateEntities <$> (match outcome (findDuplicates (entityCandidates [aliceSmith])
                                                        looseOptions) aliceSmithStore with
                         | Returned report => Some report
                         | Thrown _ => None
                         end) =
    Some [{| candidate := aliceSmith; existing := loadedEntity aliceSmith;
             similarityScore := 0.99999999999999978%float;
             matchType := "exact"; duplicateType := "structural" |}] /\
  PrimFloat.ltb 0.99999999999999978 1 = true /\
  duplicateEntities <$> (match outcome (findDuplicates (entityCandidates [aliceSmith])
                                                        exactSemanticOptions)
                                       aliceSmithStore with
                         | Returned report => Some report
                         | Thrown _ => None
                         end) = Some [].
Proof. repeat split; by vm_compute. Qed.

(** ** The duplicate detector without semantic matching *)

Lemma calculateSimilarity_same (s : string) : calculateSimilarity s s = 1%float.
Proof. unfold calculateSimilarity. by rewrite bool_decide_eq_true_2. Qed.

Lemma compareEntities_identical (o : MergedOptions) (e1 e2 : Entity) :
  name e1 = name e2 ->
  entityType e1 = entityType e2 ->
  semanticMatchingEnabled o = false ->
  PrimFloat.leb (entityNameSimilarityThreshold o) 1 = true ->
  compareEntities o e1 e2 =
    Some {| candidate := e1; existing := e2; similarityScore := 1%float;
            matchType := "exact"; duplicateType := "structural" |}.
Proof.
  intros Hname Htype Hsem Hthreshold. unfold compareEntities.
  rewrite Hsem, Hname, Htype, !calculateSimilarity_same.
  rewrite !bool_decide_eq_true_2 by done.
  assert ((1 * 0.7 + 1 * 0.3)%float = 1%float) as Hscore by reflexivity.
  destruct (considerEntityType o); cbn [andb]; rewrite Hscore;
    unfold geb; by rewrite Hthreshold.
Qed.

Lemma findDuplicates_run (data : DuplicateData) (options : Options.t) (m : Manager) :
  exists report,
    outcome (findDuplicates data options) m = Returned report /\
    duplicateEntities report =
      flat_map (fun e => omap (compareEntities (mergeOptions options) e)
                              (entities (storedGraph m)))
               (default [] (dataEntities data)).
Proof.
  unfold outcome, findDuplicates, bind. rewrite loadGraph_run, <- storedGraph_file.
  eexists. split; reflexivity.
Qed.

(** The first half of C2 where it holds.  Without semantic matching, a
    candidate entity with the name and the type of a stored entity is
    reported with the score 1.0, as an exact and structural match, at every
    threshold up to 1.0. *)
Theorem findDuplicates_identical_literal (m : Manager) (es : list Entity)
    (e1 e2 : Entity) (options : Options.t) :
  e1 ∈ es ->
  e2 ∈ entities (storedGraph m) ->
  name e1 = name e2 ->
  entityType e1 = entityType e2 ->
  semanticMatchingEnabled (mergeOptions options) = false ->
  PrimFloat.leb (entityNameSimilarityThreshold (mergeOptions options)) 1 = true ->
  exists report,
    outcome (findDuplicates (entityCandidates es) options) m = Returned report /\
    {| candidate := e1; existing := e2; similarityScore := 1%float;
       matchType := "exact"; duplicateType := "structural" |}
      ∈ duplicateEntities report.
Proof.
  intros He1 He2 Hname Htype Hsem Hthreshold.
  destruct (findDuplicates_run (entityCandidates es) options m) as (report & Hrun & Hdup).
  exists report. split; [done|]. rewrite Hdup. cbn [entityCandidates dataEntities default].
  apply list_elem_of_In, in_flat_map. exists e1. split; [by apply list_elem_of_In|].
  apply list_elem_of_In, list_elem_of_omap. exists e2. split; [done|].
  by apply compareEntities_identical.
Qed.

(** A use of it: Alice against the store that holds Alice, with the default
    options. *)
Lemma findDuplicates_identical_literal_witness :
  exists report,
    outcome (findDuplicates (entityCandidates [alice]) Options.empty) aliceStore =
      Returned report /\
    {| candidate := alice; existing := loadedEntity alice; similarityScore := 1%float;
       matchType := "exact"; duplicateType := "structural" |}
      ∈ duplicateEntities report.
Proof.
  apply findDuplicates_identical_literal; try reflexivity.
  - by left.
  - vm_compute. by left.
Defined.

(** ** The threshold test *)

Lemma SFleb_refl (x y : SpecFloat.spec_float) :
  SpecFloat.SFleb x y = true -> SpecFloat.SFleb y y = true.
Proof.
  unfold SpecFloat.SFleb.
  destruct y as [s| s| |s m e]; simpl.
  - done.
  - by destruct s.
  - by destruct x.
  - intros _. destruct s; rewrite Z.compare_refl, Pos.compare_cont_refl; done.
Qed.

(** A number that passes a test [>=] is not [NaN], and is [>=] itself. *)
Lemma geb_refl (score threshold : float) :
  geb score threshold = true -> geb score score = true.
Proof. unfold geb. rewrite !FloatAxioms.leb_spec. apply SFleb_refl. Qed.

(** The second half of C2.  The test of a pair against the threshold is
    [>=]: a pair that is reported at some threshold is reported at exactly
    the thresholds up to its score, its score included. *)
Theorem compareEntities_threshold (o : MergedOptions) (e1 e2 : Entity)
    (d : Duplicate Entity) (threshold : float) :
  compareEntities o e1 e2 = Some d ->
  compareEntities (atThreshold threshold o) e1 e2 =
    (if geb (similarityScore d) threshold then Some d else None) /\
  compareEntities (atThreshold (similarityScore d) o) e1 e2 = Some d.
Proof.
  unfold compareEntities.
  change (semanticMatchingEnabled (atThreshold ?t o)) with (semanticMatchingEnabled o).
  change (considerEntityType (atThreshold ?t o)) with (considerEntityType o).
  change (entityNameSimilarityThreshold (atThreshold ?t o)) with t.
  destruct (if semanticMatchingEnabled o then _ else _) as [[nameSimilarity typeMatch] mt].
  destruct (geb _ (entityNameSimilarityThreshold o)) eqn:Hreported; [|done].
  intros [= <-]. cbn [similarityScore]. split; [done|].
  by rewrite (geb_refl _ _ Hreported).
Qed.

(** A use of it: Alice against the store that holds Alice, at the threshold
    1.0, the score of the pair. *)
Lemma compareEntities_threshold_witness :
  compareEntities (atThreshold 1 defaultOptions) alice (loadedEntity alice) =
    Some {| candidate := alice; existing := loadedEntity alice; similarityScore := 1%float;
            matchType := "exact"; duplicateType := "structural" |}.
Proof.
  apply (compareEntities_threshold defaultOptions alice (loadedEntity alice)
           {| candidate := alice; existing := loadedEntity alice;
              similarityScore := 1%float;
              matchType := "exact"; duplicateType := "structural" |} 1%float).
  by vm_compute.
Defined.

(** ** The uniqueness of the names *)

Lemma names_saveGraph (graph : KnowledgeGraph) (m : Manager) :
  map name (entities (storedGraph (exec (saveGraph graph) m))) = map name (entities graph).
Proof. rewrite storedGraph_saveGraph. apply map_name_loadedEntity. Qed.

(** The new entities of a request whose names are distinct keep the names
    of the graph distinct. *)
Lemma names_with_new (existing es : list Entity) :
  NoDup (map name existing) ->
  NoDup (map name es) ->
  NoDup (map name (existing ++
                   List.filter (fun e => negb (some (fun existingEntity =>
                                                       bool_decide (name existingEntity = name e))
                                                    existing)) es)).
Proof.
  intros Hexisting Hes. rewrite map_app. apply NoDup_app. split; [done|]. split.
  - intros n Hn (e & -> & He)%list_elem_of_fmap.
    apply list_elem_of_In, filter_In in He as [_ He].
    apply negb_true_iff in He. apply some_name_spec in Hn. congruence.
  - eapply sublist_NoDup; [done|]. apply (fmap_sublist name), filter_sublist.
Qed.

Lemma addObservation_names (graph graph' : KnowledgeGraph) (o : ObservationInput)
    (r : ObservationResult) :
  addObservation graph o = Returned (r, graph') ->
  map name (entities graph') = map name (entities graph).
Proof.
  unfold addObservation.
  destruct (list_find _ _) as [[i e]|] eqn:Hfind; [|done].
  intros [= _ <-]. apply list_find_Some in Hfind as (Hi & _ & _). cbn [entities].
  change (map name ?l) with (name <$> l).
  rewrite list_fmap_insert. apply list_insert_id.
  rewrite list_lookup_fmap, Hi. reflexivity.
Qed.

Lemma mapObservations_names (os : list ObservationInput) (graph graph' : KnowledgeGraph)
    (rs : list ObservationResult) :
  mapObservations graph os = Returned (rs, graph') ->
  map name (entities graph') = map name (entities graph).
Proof.
  revert graph rs. induction os as [|o os IH]; intros graph rs; simpl.
  - by intros [= _ <-].
  - destruct (addObservation graph o) as [[r g1]|] eqn:Hadd; [|done].
    destruct (mapObservations g1 os) as [[rs' g2]|] eqn:Hmap; [|done].
    intros [= _ <-]. rewrite (IH _ _ Hmap). by eapply addObservation_names.
Qed.

Lemma deleteObservation_names (graph : KnowledgeGraph) (d : Deletion) :
  map name (entities (deleteObservation graph d)) = map name (entities graph).
Proof.
  unfold deleteObservation.
  destruct (list_find _ _) as [[i e]|] eqn:Hfind; [|done].
  apply list_find_Some in Hfind as (Hi & _ & _). cbn [entities].
  change (map name ?l) with (name <$> l).
  rewrite list_fmap_insert. apply list_insert_id.
  rewrite list_lookup_fmap, Hi. reflexivity.
Qed.

Lemma fold_deleteObservation_names (ds : list Deletion) (graph : KnowledgeGraph) :
  map name (entities (fold_left deleteObservation ds graph)) = map name (entities graph).
Proof.
  revert graph. induction ds as [|d ds IH]; intros graph; simpl; [done|].
  by rewrite IH, deleteObservation_names.
Qed.

Lemma names_saved (graph : KnowledgeGraph) (ei : FlexSearch.Index nat)
    (oi : FlexSearch.Index string) :
  map name (entities (storedGraph {| file := Some (linesOf graph);
                                     entityIndex := ei; observationIndex := oi |})) =
  map name (entities graph).
Proof.
  rewrite storedGraph_file. cbn [file from_option]. rewrite parseLines_linesOf.
  apply map_name_loadedEntity.
Qed.

Lemma names_rebuilt (graph : KnowledgeGraph) (m : Manager) :
  storedGraph (rebuilt graph m) = storedGraph m.
Proof. by rewrite !storedGraph_file. Qed.

(** The part of C1 that the code keeps.  From a stored graph with distinct
    names, every mutation leaves a stored graph with distinct names, given
    that the entities of a creation request have distinct names among
    themselves. *)
Theorem names_stay_unique (m : Manager) :
  NoDup (map name (entities (storedGraph m))) ->
  (forall es, NoDup (map name es) ->
     NoDup (map name (entities (storedGraph (exec (createEntities es) m))))) /\
  (forall rs,
     NoDup (map name (entities (storedGraph (exec (createRelations rs) m))))) /\
  (forall os,
     NoDup (map name (entities (storedGraph (exec (addObservations os) m))))) /\
  (forall entityNames,
     NoDup (map name (entities (storedGraph (exec (deleteEntities entityNames) m))))) /\
  (forall deletions,
     NoDup (map name (entities (storedGraph (exec (deleteObservations deletions) m))))) /\
  (forall rs,
     NoDup (map name (entities (storedGraph (exec (deleteRelations rs) m))))) /\
  (forall data, NoDup (map name (default [] (batchEntities data))) ->
     NoDup (map name (entities (storedGraph (exec (batchCreate data) m))))).
Proof.
  intros Hunique. repeat split.
  - intros es Hes. unfold exec at 1. rewrite createEntities_run. cbv zeta. cbn [snd].
    rewrite names_saveGraph. cbn [entities]. by apply names_with_new.
  - intros rs. unfold createRelations, exec, bind.
    rewrite loadGraph_run, <- storedGraph_file, saveGraph_run. cbn [ret snd].
    by rewrite names_saved.
  - intros os. unfold addObservations, exec, bind.
    rewrite loadGraph_run, <- storedGraph_file.
    destruct (mapObservations (storedGraph m) os) as [[rs graph]|] eqn:Hmap.
    + apply mapObservations_names in Hmap.
      rewrite saveGraph_run. cbn [ret snd]. by rewrite names_saved, Hmap.
    + cbn [throw snd]. by rewrite names_rebuilt.
  - intros entityNames. unfold deleteEntities, exec, bind.
    rewrite loadGraph_run, <- storedGraph_file, saveGraph_run. cbn [snd].
    rewrite names_saved. cbn [entities].
    eapply sublist_NoDup; [done|]. apply (fmap_sublist name), filter_sublist.
  - intros deletions. unfold deleteObservations, exec, bind.
    rewrite loadGraph_run, <- storedGraph_file, saveGraph_run. cbn [snd].
    by rewrite names_saved, fold_deleteObservation_names.
  - intros rs. unfold deleteRelations, exec, bind.
    rewrite loadGraph_run, <- storedGraph_file, saveGraph_run. cbn [snd].
    by rewrite names_saved.
  - intros data Hes. unfold batchCreate, exec, bind.
    rewrite loadGraph_run, <- storedGraph_file.
    set (g := storedGraph m) in *.
    set (step1 := match batchEntities data with
                  | Some ((_ :: _) as es) => _
                  | _ => (g, 0)
                  end).
    assert (NoDup (map name (entities step1.1))) as H1.
    { subst step1. destruct (batchEntities data) as [[|e es]|]; try done.
      cbn [fst entities]. by apply names_with_new. }
    destruct step1 as [g1 created]. cbn [fst] in H1.
    set (step2 := match batchRelations data with
                  | Some ((_ :: _) as rs) => _
                  | _ => (g1, [])
                  end).
    assert (entities step2.1 = entities g1) as H2.
    { subst step2. by destruct (batchRelations data) as [[|r rs]|]. }
    destruct step2 as [g2 createdRelations]. cbn [fst] in H2.
    set (step3 := match batchObservations data with
                  | Some ((_ :: _) as os) => mapObservations g2 os
                  | _ => Returned ([], g2)
                  end).
    assert (forall added g3, step3 = Returned (added, g3) ->
                             map name (entities g3) = map name (entities g1)) as H3.
    { subst step3. intros added g3.
      destruct (batchObservations data) as [[|o os]|].
      - intros [= _ <-]. by rewrite H2.
      - intros Hmap%mapObservations_names. by rewrite Hmap, H2.
      - intros [= _ <-]. by rewrite H2. }
    destruct step3 as [[added g3]|].
    + rewrite saveGraph_run. cbn [ret snd]. rewrite names_saved.
      by rewrite (H3 added g3 eq_refl).
    + cbn [throw snd]. subst g. by rewrite names_rebuilt.
Qed.

(** A use of it: Bob is created in the store that holds Alice. *)
Lemma names_stay_unique_witness :
  NoDup (map name (entities (storedGraph (exec (createEntities [bob]) aliceStore)))).
Proof.
  assert (NoDup (map name (entities (storedGraph aliceStore)))) as Hstored
    by (vm_compute; apply NoDup_singleton).
  assert (NoDup (map name [bob])) as Hbob by (vm_compute; apply NoDup_singleton).
  exact (proj1 (names_stay_unique aliceStore Hstored) [bob] Hbob).
Defined.

(** ** The result of a search is an induced subgraph *)

Lemma filterFrom_sublist {A} (p : A -> nat -> bool) (l : list A) (start : nat) :
  filterFrom p start l `sublist_of` l.
Proof.
  revert start. induction l as [|x l IH]; intros start; simpl; [done|].
  destruct (p x start); by constructor.
Qed.

Lemma relationsBetween_spec (names : list string) (rs : list Relation) (r : Relation) :
  r ∈ relationsBetween names rs <-> r ∈ rs /\ from r ∈ names /\ to r ∈ names.
Proof.
  unfold relationsBetween, includes.
  rewrite list_elem_of_In, filter_In, andb_true_iff, !bool_decide_eq_true.
  by rewrite <- list_elem_of_In.
Qed.

(** [searchNodes] returns entities of the stored graph, in their order, and
    exactly the relations of the stored graph whose two ends are both among
    the returned entities. *)
Theorem searchNodes_induced_subgraph (query : string) (m : Manager) :
  exists result,
    outcome (searchNodes query) m = Returned result /\
    entities result `sublist_of` entities (storedGraph m) /\
    relations result `sublist_of` relations (storedGraph m) /\
    forall r, r ∈ relations result <->
              r ∈ relations (storedGraph m) /\
              from r ∈ map name (entities result) /\
              to r ∈ map name (entities result).
Proof.
  unfold outcome. rewrite searchNodes_run. cbv zeta. cbn [fst].
  eexists. split; [reflexivity|].
  destruct (bool_decide (JS.trim query = EmptyString)); cbn [entities relations].
  - split; [apply sublist_nil_l|]. split; [apply sublist_nil_l|].
    intros r. cbn [map]. rewrite !elem_of_nil. tauto.
  - split; [apply filterFrom_sublist|]. split; [apply filter_sublist|].
    intros r. apply relationsBetween_spec.
Qed.

(** ** The scenarios of the specification *)

(** Alice is inserted; inserting her again returns the empty list; the
    query "tea" finds her. *)
Example scenario_alice :
  outcome (createEntities [alice]) knowledgeGraphManager = Returned [alice] /\
  outcome (createEntities [alice]) aliceStore = Returned [] /\
  outcome (searchNodes "tea") aliceStore =
    Returned {| entities := [loadedEntity alice]; relations := [] |}.
Proof. repeat split; by vm_compute. Qed.

(** Alice, Bob and a relation between them; deleting Bob leaves Alice and
    no relation. *)
Example scenario_delete_bob :
  storedGraph aliceBobStore =
    {| entities := [loadedEntity alice; loadedEntity bob];
       relations := [loadedRelation aliceKnowsBob] |} /\
  storedGraph (exec (deleteEntities ["Bob"]) aliceBobStore) =
    {| entities := [loadedEntity alice]; relations := [] |}.
Proof. split; by vm_compute. Qed.

(** "Alise" against a store with "Alice", under the preset [loose]: a fuzzy
    match with a score of at least 0.6. *)
Example scenario_alise :
  duplicateEntities <$> (match outcome (findDuplicates (entityCandidates [alise])
                                                        looseOptions) aliceStore with
                         | Returned report => Some report
                         | Thrown _ => None
                         end) =
    Some [{| candidate := alise; existing := loadedEntity alice;
             similarityScore := 0.69199999999999995%float;
             matchType := "fuzzy"; duplicateType := "semantic" |}] /\
  geb 0.69199999999999995 0.6 = true.
Proof. split; by vm_compute. Qed.

(** The limit of the lookups is felt: each of the 201 entities of this store
    has the observation "tea", and the query "tea" does not return the
    last of them. *)
Example searchNodes_limit_omits :
  loadedEntity (teaDrinker 201) ∈ entities (storedGraph teaFestival) /\
  forall result,
    outcome (searchNodes "tea") teaFestival = Returned result ->
    length (entities result) = 100 /\
    loadedEntity (teaDrinker 201) ∉ entities result.
Proof.
  split.
  - apply (bool_decide_eq_true_1 _). by vm_compute.
  - intros result Hrun. vm_compute in Hrun. injection Hrun as <-.
    split; [reflexivity|]. apply (bool_decide_eq_false_1 _). by vm_compute.
Qed.

(** ** Relations *)

Lemma some_map {A B} (p : B -> bool) (f : A -> B) (l : list A) :
  some p (map f l) = some (fun x => p (f x)) l.
Proof. induction l as [|x l IH]; simpl; [done|]. by rewrite IH. Qed.

Lemma sameRelation_loaded (x r : Relation) :
  r_type x = Some relation -> sameRelation x r = true -> x = loadedRelation r.
Proof.
  unfold sameRelation. intros Htag H.
  apply andb_true_iff in H as [H Ht]. apply andb_true_iff in H as [Hf Hto].
  apply bool_decide_eq_true in Hf, Hto, Ht.
  destruct x, r; simpl in *; by subst.
Qed.

Lemma sameRelation_refl (r : Relation) : sameRelation (loadedRelation r) r = true.
Proof. unfold sameRelation; simpl. by rewrite !bool_decide_eq_true_2. Qed.

Lemma createRelations_run (rs : list Relation) (m : Manager) :
  createRelations rs m =
    let graph := storedGraph m in
    let newRelations :=
      List.filter (fun r => negb (some (fun existingRelation =>
                                          sameRelation existingRelation r)
                                       (relations graph))) rs in
    (Returned newRelations,
     exec (saveGraph {| entities := entities graph;
                        relations := relations graph ++ newRelations |}) m).
Proof.
  unfold createRelations, bind. rewrite loadGraph_run, storedGraph_file.
  reflexivity.
Qed.

(** Idempotence of [createRelations]: the second of two calls in a row
    returns the empty list and leaves the state as the first call left it;
    the first call appends a sublist of the request to the stored
    relations. *)
Theorem createRelations_twice (rs : list Relation) (m : Manager) :
  let first := createRelations rs m in
  let second := createRelations rs first.2 in
  second.1 = Returned [] /\
  second.2 = first.2 /\
  exists inserted,
    first.1 = Returned inserted /\
    inserted `sublist_of` rs /\
    relations (storedGraph second.2) =
      relations (storedGraph m) ++ map loadedRelation inserted.
Proof.
  cbv zeta. rewrite (createRelations_run rs m). cbv zeta. cbn [fst snd].
  set (new := List.filter _ rs).
  rewrite createRelations_run. cbv zeta. cbn [fst snd].
  rewrite !storedGraph_saveGraph. cbn [entities relations].
  assert (List.filter
            (fun r => negb (some (fun existingRelation => sameRelation existingRelation r)
                                 (map loadedRelation (relations (storedGraph m) ++ new))))
            rs = []) as ->.
  { apply filter_nil_iff. intros r Hr. apply negb_false_iff.
    rewrite some_map. unfold some. apply existsb_exists.
    destruct (some (fun existingRelation => sameRelation existingRelation r)
                   (relations (storedGraph m))) eqn:Hs.
    - apply existsb_exists in Hs as (x & Hx & Hsame). exists x.
      split; [apply in_or_app; by left|done].
    - exists r. split; [|apply sameRelation_refl].
      apply in_or_app. right. apply filter_In. split; [by apply list_elem_of_In|].
      by rewrite Hs. }
  rewrite app_nil_r.
  split; [reflexivity|].
  split; [apply (exec_saveGraph_loaded (entities (storedGraph m))
                   (relations (storedGraph m) ++ new))|].
  exists new. split; [reflexivity|]. split; [apply filter_sublist|].
  rewrite map_map.
  change (fun x => loadedRelation (loadedRelation x)) with loadedRelation.
  rewrite map_app. by rewrite (proj2 (storedGraph_loaded m)).
Qed.

(** [createRelations] does not look at the entities: whatever the ends of a
    relation name, after the call the relation is in the stored graph.  The
    relations stored before stay, first and in their order, and the
    entities are untouched. *)
Theorem createRelations_stores_all (rs : list Relation) (m : Manager) :
  let after := storedGraph (exec (createRelations rs) m) in
  Forall (fun r => loadedRelation r ∈ relations after) rs /\
  relations (storedGraph m) `prefix_of` relations after /\
  entities after = entities (storedGraph m).
Proof.
  cbv zeta. unfold exec at 1 2 3. rewrite createRelations_run. cbv zeta. cbn [snd].
  rewrite storedGraph_saveGraph. cbn [entities relations].
  destruct (storedGraph_loaded m) as [He Hr]. rewrite He, map_app, Hr.
  split; [|split; [by eexists|done]].
  apply Forall_forall. intros r Hr'. apply elem_of_app.
  destruct (some (fun existingRelation => sameRelation existingRelation r)
                 (relations (storedGraph m))) eqn:Hs.
  - left. apply existsb_exists in Hs as (x & Hx & Hsame).
    apply list_elem_of_In in Hx.
    rewrite <- (sameRelation_loaded x r); [done| |done].
    pose proof (proj2 (storedGraph_discriminators m)) as Htags.
    rewrite Forall_forall in Htags. by apply Htags.
  - right. apply list_elem_of_fmap. exists r. split; [done|].
    apply list_elem_of_In, filter_In. split; [by apply list_elem_of_In|].
    by rewrite Hs.
Qed.

(** [createEntities] never overwrites: the entities stored before stay as
    they are, first and in their order; the call returns exactly the entries
    of the request whose name was not stored, and afterwards every name of
    the request is stored.  The relations are untouched. *)
Theorem createEntities_keeps_existing (es : list Entity) (m : Manager) :
  let before := storedGraph m in
  let after := storedGraph (exec (createEntities es) m) in
  entities before `prefix_of` entities after /\
  relations after = relations before /\
  Forall (fun e => name e ∈ map name (entities after)) es /\
  exists inserted,
    outcome (createEntities es) m = Returned inserted /\
    forall e, e ∈ inserted <-> e ∈ es /\ name e ∉ map name (entities before).
Proof.
  cbv zeta. unfold exec, outcome. rewrite createEntities_run. cbv zeta. cbn [fst snd].
  rewrite storedGraph_saveGraph. cbn [entities relations].
  destruct (storedGraph_loaded m) as [He Hr]. rewrite map_app, He, Hr.
  split; [by eexists|]. split; [done|]. split.
  - apply Forall_forall. intros e Hin. rewrite map_app, elem_of_app.
    destruct (some (fun existingEntity => bool_decide (name existingEntity = name e))
                   (entities (storedGraph m))) eqn:Hs.
    + left. by apply some_name_spec.
    + right. rewrite map_name_loadedEntity. apply list_elem_of_fmap. exists e.
      split; [done|]. apply list_elem_of_In, filter_In.
      split; [by apply list_elem_of_In|]. by rewrite Hs.
  - eexists. split; [reflexivity|]. intros e.
    rewrite list_elem_of_In, filter_In, <- list_elem_of_In, negb_true_iff.
    rewrite <- some_name_spec. destruct (some _ _); intuition congruence.
Qed.

Lemma deleteRelations_run (rs : list Relation) (m : Manager) :
  deleteRelations rs m =
    (Returned tt,
     exec (saveGraph
             {| entities := entities (storedGraph m);
                relations :=
                  List.filter (fun r => negb (some (fun delRelation =>
                                                      sameRelation r delRelation) rs))
                              (relations (storedGraph m)) |}) m).
Proof.
  unfold deleteRelations, bind. rewrite loadGraph_run, storedGraph_file.
  reflexivity.
Qed.



(** ** Queries *)

Lemma openNodes_run (names : list string) (m : Manager) :
  openNodes names m =
    let graph := storedGraph m in
    let filteredEntities :=
      List.filter (fun e => includes (name e) names) (entities graph) in
    (Returned {| entities := filteredEntities;
                 relations := relationsBetween (map name filteredEntities)
                                               (relations graph) |},
     rebuilt graph m).
Proof.
  unfold openNodes, bind. rewrite loadGraph_run, <- storedGraph_file. reflexivity.
Qed.

(** [openNodes(names)] returns exactly the stored entities whose name is
    one of [names], in their stored order, and exactly the stored relations
    whose two ends are names of returned entities; a name that no entity has
    is passed over in silence. *)
Theorem openNodes_exact (names : list string) (m : Manager) :
  exists result,
    outcome (openNodes names) m = Returned result /\
    entities result `sublist_of` entities (storedGraph m) /\
    relations result `sublist_of` relations (storedGraph m) /\
    (forall e, e ∈ entities result <->
               e ∈ entities (storedGraph m) /\ name e ∈ names) /\
    (forall r, r ∈ relations result <->
               r ∈ relations (storedGraph m) /\
               from r ∈ map name (entities result) /\
               to r ∈ map name (entities result)).
Proof.
  unfold outcome. rewrite openNodes_run. cbv zeta. cbn [fst].
  eexists. split; [reflexivity|]. cbn [entities relations].
  split; [apply filter_sublist|]. split; [apply filter_sublist|]. split.
  - intros e. unfold includes.
    by rewrite list_elem_of_In, filter_In, <- list_elem_of_In, bool_decide_eq_true.
  - intros r. apply relationsBetween_spec.
Qed.

(** The four queries write nothing: [readGraph], [searchNodes],
    [openNodes] and [findDuplicates] leave the file as it was, whether it
    is absent or holds records, whatever their arguments. *)
Theorem queries_read_only (m : Manager) :
  file (exec readGraph m) = file m /\
  (forall query, file (exec (searchNodes query) m) = file m) /\
  (forall names, file (exec (openNodes names) m) = file m) /\
  (forall data options, file (exec (findDuplicates data options) m) = file m).
Proof.
  repeat split.
  - unfold exec, readGraph. by rewrite loadGraph_run.
  - intros query. unfold exec. by rewrite searchNodes_run.
  - intros names. unfold exec. by rewrite openNodes_run.
  - intros data options. unfold exec, findDuplicates, bind. by rewrite loadGraph_run.
Qed.

(** ** The indexes follow the store *)

Lemma indexesCurrent_rebuilt (m : Manager) : indexesCurrent (rebuilt (storedGraph m) m).
Proof. unfold indexesCurrent. by rewrite names_rebuilt. Qed.

Lemma indexesCurrent_saved (graph : KnowledgeGraph) (m : Manager) :
  indexesCurrent (saveGraph graph m).2.
Proof.
  unfold indexesCurrent. rewrite saveGraph_run. cbn [entityIndex observationIndex snd].
  rewrite storedGraph_file. cbn [file from_option]. rewrite parseLines_linesOf.
  destruct graph as [es rs]. cbn [entities relations].
  by rewrite (entityDocuments_loaded es _ rs), (observationDocuments_loaded es _ rs).
Qed.

(** After every operation the two indexes of the manager are the indexes of
    the graph that is then stored: a mutation rebuilds them from the graph
    it saves, a query and a failed call from the graph they loaded. *)
Theorem indexes_follow_store (m : Manager) :
  indexesCurrent (exec readGraph m) /\
  (forall es, indexesCurrent (exec (createEntities es) m)) /\
  (forall rs, indexesCurrent (exec (createRelations rs) m)) /\
  (forall os, indexesCurrent (exec (addObservations os) m)) /\
  (forall entityNames, indexesCurrent (exec (deleteEntities entityNames) m)) /\
  (forall deletions, indexesCurrent (exec (deleteObservations deletions) m)) /\
  (forall rs, indexesCurrent (exec (deleteRelations rs) m)) /\
  (forall query, indexesCurrent (exec (searchNodes query) m)) /\
  (forall names, indexesCurrent (exec (openNodes names) m)) /\
  (forall data, indexesCurrent (exec (batchCreate data) m)) /\
  (forall data options, indexesCurrent (exec (findDuplicates data options) m)).
Proof.
  repeat match goal with |- _ /\ _ => split end.
  - unfold exec, readGraph. rewrite loadGraph_run, <- storedGraph_file.
    apply indexesCurrent_rebuilt.
  - intros es. unfold exec at 1. rewrite createEntities_run. apply indexesCurrent_saved.
  - intros rs. unfold exec at 1. rewrite createRelations_run. apply indexesCurrent_saved.
  - intros os. unfold exec, addObservations, bind.
    rewrite loadGraph_run, <- storedGraph_file.
    destruct (mapObservations (storedGraph m) os) as [[rs graph]|].
    + pose proof (indexesCurrent_saved graph (rebuilt (storedGraph m) m)) as H.
      by destruct (saveGraph graph (rebuilt (storedGraph m) m)) as [[[]|] m'].
    + apply indexesCurrent_rebuilt.
  - intros entityNames. unfold exec, deleteEntities, bind.
    rewrite loadGraph_run, <- storedGraph_file. apply indexesCurrent_saved.
  - intros deletions. unfold exec, deleteObservations, bind.
    rewrite loadGraph_run, <- storedGraph_file. apply indexesCurrent_saved.
  - intros rs. unfold exec at 1. rewrite deleteRelations_run. apply indexesCurrent_saved.
  - intros query. unfold exec. rewrite searchNodes_run. apply indexesCurrent_rebuilt.
  - intros names. unfold exec. rewrite openNodes_run. apply indexesCurrent_rebuilt.
  - intros data. unfold exec, batchCreate, bind.
    rewrite loadGraph_run, <- storedGraph_file.
    destruct (match batchEntities data with
              | Some ((_ :: _) as es) => _
              | _ => _
              end) as [g1 created].
    destruct (match batchRelations data with
              | Some ((_ :: _) as rs) => _
              | _ => _
              end) as [g2 createdRelations].
    destruct (match batchObservations data with
              | Some ((_ :: _) as os) => _
              | _ => _
              end) as [[added g3]|].
    + pose proof (indexesCurrent_saved g3 (rebuilt (storedGraph m) m)) as H.
      by destruct (saveGraph g3 (rebuilt (storedGraph m) m)) as [[[]|] m'].
    + apply indexesCurrent_rebuilt.
  - intros data options. unfold exec, findDuplicates, bind.
    rewrite loadGraph_run, <- storedGraph_file. apply indexesCurrent_rebuilt.
Qed.

(** ** Adding observations *)

(** [find] by name gives the same position in two lists whose names agree
    position by position. *)
Lemma list_find_name (R : Entity -> Entity -> Prop) (l l' : list Entity) (n : string)
    (i : nat) (e : Entity) :
  Forall2 (fun e e' => name e' = name e /\ R e e') l l' ->
  list_find (fun x => name x = n) l = Some (i, e) ->
  exists e', list_find (fun x => name x = n) l' = Some (i, e') /\ R e e'.
Proof.
  intros H. revert i e. induction H as [|x y l l' [Hname HR] _ IH]; intros i e; [done|].
  cbn [list_find]. rewrite Hname.
  destruct (decide (name x = n)) as [Hx|Hx].
  - intros [= <- <-]. by exists y.
  - destruct (list_find _ l) as [[j z]|] eqn:Hfind; [|done]. simpl.
    intros [= <- <-]. destruct (IH j z eq_refl) as (e' & -> & He'). by exists e'.
Qed.

Lemma extends_refl (e : Entity) : extends e e.
Proof. by repeat split. Qed.

Lemma extends_trans (e1 e2 e3 : Entity) : extends e1 e2 -> extends e2 e3 -> extends e1 e3.
Proof.
  intros (H1 & H2 & H3 & H4) (H5 & H6 & H7 & H8).
  repeat split; try congruence. by etrans.
Qed.

Lemma Forall2_extends_refl (l : list Entity) : Forall2 extends l l.
Proof. induction l; constructor; [apply extends_refl|done]. Qed.

Lemma Forall2_extends_trans (l1 l2 l3 : list Entity) :
  Forall2 extends l1 l2 -> Forall2 extends l2 l3 -> Forall2 extends l1 l3.
Proof.
  intros H. revert l3. induction H as [|x y l l' Hxy _ IH]; intros l3 H3.
  - by inversion H3.
  - inversion H3 as [|y' z l2' l3' Hyz Hrest]; subst. constructor; [|by apply IH].
    by eapply extends_trans.
Qed.

Lemma Forall2_extends_names (l l' : list Entity) :
  Forall2 extends l l' -> Forall2 (fun e e' => name e' = name e /\ extends e e') l l'.
Proof. intros H. eapply Forall2_impl; [done|]. intros e e' He. split; [apply He|done]. Qed.

(** One step of [addObservations]: the entity found takes the contents it
    lacks, at its end; everything else stays. *)
Lemma addObservation_step (graph graph' : KnowledgeGraph) (o : ObservationInput)
    (r : ObservationResult) :
  addObservation graph o = Returned (r, graph') ->
  Forall2 extends (entities graph) (entities graph') /\
  relations graph' = relations graph /\
  resultEntityName r = entityName o /\
  addedObservations r `sublist_of` contents o /\
  exists i e e',
    list_find (fun x => name x = entityName o) (entities graph) = Some (i, e) /\
    list_find (fun x => name x = entityName o) (entities graph') = Some (i, e') /\
    observations e' = observations e ++ addedObservations r /\
    Forall (fun c => c ∉ observations e) (addedObservations r) /\
    Forall (fun c => c ∈ observations e') (contents o).
Proof.
  unfold addObservation.
  destruct (list_find _ _) as [[i e]|] eqn:Hfind; [|done].
  intros [= <- <-]. cbn [entities relations resultEntityName addedObservations].
  set (new := List.filter _ (contents o)).
  set (e' := withObservations e (observations e ++ new)).
  assert (extends e e') as Hext.
  { repeat split. by eexists. }
  pose proof Hfind as (Hi & Hname & _)%list_find_Some.
  assert (Forall2 extends (entities graph) (<[i:=e']> (entities graph))) as Hall.
  { rewrite <- (list_insert_id (entities graph) i e) at 1 by done.
    apply Forall2_insert; [apply Forall2_extends_refl|done]. }
  split; [done|]. split; [done|]. split; [done|]. split; [apply filter_sublist|].
  exists i, e, e'. split; [done|].
  destruct (list_find_name extends _ _ _ _ _ (Forall2_extends_names _ _ Hall) Hfind)
    as (e'' & Hfind' & _).
  assert (e'' = e') as ->.
  { apply list_find_Some in Hfind' as (Hi' & _).
    rewrite list_lookup_insert_eq in Hi'; [congruence|]. by eapply lookup_lt_Some. }
  split; [done|]. split; [done|]. split.
  - apply Forall_forall. intros c Hc%list_elem_of_In%filter_In.
    destruct Hc as [_ Hc]. by apply negb_true_iff, bool_decide_eq_false in Hc.
  - apply Forall_forall. intros c Hc. simpl. apply elem_of_app.
    destruct (decide (c ∈ observations e)) as [Hin|Hout]; [by left|right].
    apply list_elem_of_In, filter_In. split; [by apply list_elem_of_In|].
    by apply negb_true_iff, bool_decide_eq_false.
Qed.

(** The whole [map]: the entities only grow at their ends, and at the end
    every content of the request is an observation of the entity its name
    finds. *)
Lemma mapObservations_steps (os : list ObservationInput) (graph graph' : KnowledgeGraph)
    (rs : list ObservationResult) :
  mapObservations graph os = Returned (rs, graph') ->
  Forall2 extends (entities graph) (entities graph') /\
  relations graph' = relations graph /\
  Forall2 (fun o r => resultEntityName r = entityName o /\
                      addedObservations r `sublist_of` contents o) os rs /\
  Forall (fun o => exists i e',
                     list_find (fun x => name x = entityName o) (entities graph') =
                       Some (i, e') /\
                     Forall (fun c => c ∈ observations e') (contents o)) os.
Proof.
  revert graph rs. induction os as [|o os IH]; intros graph rs; simpl.
  - intros [= <- <-]. split; [apply Forall2_extends_refl|]. by repeat split.
  - destruct (addObservation graph o) as [[r g1]|] eqn:Hadd; [|done].
    destruct (mapObservations g1 os) as [[rs' g2]|] eqn:Hmap; [|done].
    intros [= <- <-].
    destruct (addObservation_step _ _ _ _ Hadd)
      as (Hext1 & Hrel1 & Hname & Hsub & i & e & e1 & _ & Hfind1 & _ & _ & Hall1).
    destruct (IH _ _ Hmap) as (Hext2 & Hrel2 & Hres & Hall2).
    split; [by eapply Forall2_extends_trans|]. split; [congruence|].
    split; [by constructor|]. constructor; [|done].
    destruct (list_find_name extends _ _ _ _ _ (Forall2_extends_names _ _ Hext2) Hfind1)
      as (e2 & Hfind2 & (_ & _ & _ & Hprefix)).
    exists i, e2. split; [done|]. eapply Forall_impl; [done|].
    intros c Hc. simpl in Hc. destruct Hprefix as [k ->]. apply elem_of_app. by left.
Qed.

Lemma mapObservations_found (os : list ObservationInput) (graph : KnowledgeGraph) :
  Forall (fun o => entityName o ∈ map name (entities graph)) os ->
  exists rs graph', mapObservations graph os = Returned (rs, graph').
Proof.
  revert graph. induction os as [|o os IH]; intros graph Hall; simpl; [by eexists _, _|].
  apply Forall_cons in Hall as [Ho Hall].
  destruct (addObservation_found graph o Ho) as (r & g1 & -> & Hnames).
  destruct (IH g1) as (rs & g2 & ->); [by rewrite Hnames|]. by eexists _, _.
Qed.

Lemma loadedEntity_id (l : list Entity) :
  Forall (fun e => e_type e = Some entity) l -> map loadedEntity l = l.
Proof.
  induction 1 as [|e l He _ IH]; [done|]. simpl. rewrite IH. f_equal.
  destruct e; simpl in *; by subst.
Qed.

Lemma extends_tagged (l l' : list Entity) :
  Forall2 extends l l' ->
  Forall (fun e => e_type e = Some entity) l ->
  Forall (fun e => e_type e = Some entity) l'.
Proof.
  induction 1 as [|e e' l l' (Ht & _) _ IH]; [done|].
  intros [He Hl]%Forall_cons. constructor; [congruence|by apply IH].
Qed.

Lemma addObservations_run (os : list ObservationInput) (m : Manager) :
  addObservations os m =
    match mapObservations (storedGraph m) os with
    | Thrown message => (Thrown message, rebuilt (storedGraph m) m)
    | Returned (results, graph) => (Returned results, exec (saveGraph graph) m)
    end.
Proof.
  unfold addObservations, bind. rewrite loadGraph_run, <- storedGraph_file.
  by destruct (mapObservations (storedGraph m) os) as [[rs graph]|].
Qed.

(** When every name of the request is the name of a stored entity,
    [addObservations] succeeds.  It returns one result per request, in
    order, under the name of the request and with contents of the request
    only; afterwards every content of every request is an observation of
    the first stored entity of the name of the request.  The stored
    entities keep their names, types and order, and each keeps the
    observations it had, before those it gets; the relations are
    untouched. *)
Theorem addObservations_adds (os : list ObservationInput) (m : Manager) :
  Forall (fun o => entityName o ∈ map name (entities (storedGraph m))) os ->
  let before := storedGraph m in
  let after := storedGraph (exec (addObservations os) m) in
  exists results,
    outcome (addObservations os) m = Returned results /\
    Forall2 (fun o r => resultEntityName r = entityName o /\
                        addedObservations r `sublist_of` contents o) os results /\
    Forall (fun o => exists e,
                       findEntity (entityName o) after = Some e /\
                       Forall (fun c => c ∈ observations e) (contents o)) os /\
    Forall2 extends (entities before) (entities after) /\
    relations after = relations before.
Proof.
  intros Hall. cbv zeta.
  destruct (mapObservations_found os (storedGraph m) Hall) as (rs & graph & Hmap).
  unfold outcome, exec. rewrite addObservations_run, Hmap. cbn [fst snd].
  fold (exec (saveGraph graph) m). rewrite storedGraph_saveGraph.
  destruct (mapObservations_steps _ _ _ _ Hmap) as (Hext & Hrel & Hres & Hpost).
  destruct (storedGraph_discriminators m) as [Htags Hrtags].
  rewrite (loadedEntity_id _ (extends_tagged _ _ Hext Htags)).
  cbn [entities relations]. rewrite Hrel, (proj2 (storedGraph_loaded m)).
  exists rs. split; [done|]. split; [done|]. split; [|done].
  eapply Forall_impl; [done|]. intros o (i & e & Hfind & Hc). exists e.
  unfold findEntity. cbn [entities]. by rewrite Hfind.
Qed.

(** A request whose contents are all stored already changes nothing. *)
Lemma mapObservations_again (os : list ObservationInput) (graph : KnowledgeGraph) :
  Forall (fun o => exists i e',
                     list_find (fun x => name x = entityName o) (entities graph) =
                       Some (i, e') /\
                     Forall (fun c => c ∈ observations e') (contents o)) os ->
  mapObservations graph os = Returned (map nothingAdded os, graph).
Proof.
  induction 1 as [|o os (i & e & Hfind & Hall) _ IH]; [done|].
  simpl. unfold addObservation. rewrite Hfind.
  rewrite filter_nil_iff.
  2:{ intros c Hc. apply negb_false_iff, bool_decide_eq_true.
      by eapply Forall_forall in Hall. }
  rewrite app_nil_r.
  assert (withObservations e (observations e) = e) as -> by by destruct e.
  apply list_find_Some in Hfind as (Hi & _).
  rewrite list_insert_id by done.
  assert ({| entities := entities graph; relations := relations graph |} = graph) as ->
    by by destruct graph.
  by rewrite IH.
Qed.

(** Idempotence of [addObservations]: a second call with the same request
    leaves the state as the first call left it.  When the first call
    returns, the second returns too and adds nothing: each of its results
    has an empty list of added observations.  When the first call throws,
    the second throws the same error. *)
Theorem addObservations_twice (os : list ObservationInput) (m : Manager) :
  let first := addObservations os m in
  let second := addObservations os first.2 in
  second.2 = first.2 /\
  second.1 = match first.1 with
             | Returned _ => Returned (map nothingAdded os)
             | Thrown message => Thrown message
             end.
Proof.
  cbv zeta. rewrite (addObservations_run os m).
  destruct (mapObservations (storedGraph m) os) as [[rs graph]|message] eqn:Hmap;
    cbn [fst snd].
  - destruct (mapObservations_steps _ _ _ _ Hmap) as (Hext & Hrel & Hres & Hpost).
    destruct (storedGraph_discriminators m) as [Htags Hrtags].
    assert (storedGraph (exec (saveGraph graph) m) = graph) as Hstored.
    { rewrite storedGraph_saveGraph.
      rewrite (loadedEntity_id _ (extends_tagged _ _ Hext Htags)).
      rewrite Hrel, (proj2 (storedGraph_loaded m)), <- Hrel. by destruct graph. }
    rewrite addObservations_run, Hstored, mapObservations_again; [|done].
    cbn [fst snd]. split; [|done]. unfold exec. by rewrite !saveGraph_run.
  - assert (storedGraph (rebuilt (storedGraph m) m) = storedGraph m) as Hstored
      by by rewrite !storedGraph_file.
    rewrite addObservations_run, Hstored, Hmap. by cbn [fst snd].
Qed.

(** ** Deleting observations *)

Lemma reduces_refl (ds : list Deletion) (e : Entity) : reduces ds e e.
Proof. repeat split; [done|]. intros o Hin Hout. by destruct Hout. Qed.

Lemma reduces_trans (ds : list Deletion) (e1 e2 e3 : Entity) :
  reduces ds e1 e2 -> reduces ds e2 e3 -> reduces ds e1 e3.
Proof.
  intros (H1 & H2 & H3 & H4 & H5) (H6 & H7 & H8 & H9 & H10).
  repeat split; try congruence; [by etrans|].
  intros o Hin Hout. destruct (decide (o ∈ observations e2)) as [Hmid|Hmid].
  - destruct (H10 o Hmid Hout) as (d & Hd & Hn & Ho). exists d. by rewrite <- H2.
  - by apply H5.
Qed.

Lemma Forall2_reduces_refl (ds : list Deletion) (l : list Entity) :
  Forall2 (reduces ds) l l.
Proof. induction l; constructor; [apply reduces_refl|done]. Qed.

Lemma Forall2_reduces_trans (ds : list Deletion) (l1 l2 l3 : list Entity) :
  Forall2 (reduces ds) l1 l2 -> Forall2 (reduces ds) l2 l3 -> Forall2 (reduces ds) l1 l3.
Proof.
  intros H. revert l3. induction H as [|x y l l' Hxy _ IH]; intros l3 H3.
  - by inversion H3.
  - inversion H3 as [|y' z l2' l3' Hyz Hrest]; subst. constructor; [|by apply IH].
    by eapply reduces_trans.
Qed.

(** [find] by name, backwards along a deletion. *)
Lemma list_find_reduced (ds : list Deletion) (l l' : list Entity) (n : string)
    (i : nat) (e' : Entity) :
  Forall2 (reduces ds) l l' ->
  list_find (fun x => name x = n) l' = Some (i, e') ->
  exists e, list_find (fun x => name x = n) l = Some (i, e) /\ reduces ds e e'.
Proof.
  intros H Hfind.
  apply (list_find_name (fun e' e => reduces ds e e') l' l n i e'); [|done].
  apply Forall2_flip. eapply Forall2_impl; [done|].
  intros x y Hxy. split; [symmetry; apply Hxy|done].
Qed.

(** One step of [deleteObservations]. *)
Lemma deleteObservation_step (ds : list Deletion) (graph : KnowledgeGraph) (d : Deletion) :
  d ∈ ds ->
  Forall2 (reduces ds) (entities graph) (entities (deleteObservation graph d)) /\
  relations (deleteObservation graph d) = relations graph /\
  forall i e, list_find (fun x => name x = deletionEntityName d)
                        (entities (deleteObservation graph d)) = Some (i, e) ->
              Forall (fun o => o ∉ observations e) (deletionObservations d).
Proof.
  intros Hd. unfold deleteObservation.
  destruct (list_find _ (entities graph)) as [[i e]|] eqn:Hfind.
  - cbn [entities relations].
    set (e' := withObservations e _).
    pose proof Hfind as (Hi & Hname & _)%list_find_Some.
    assert (reduces ds e e') as Hred.
    { repeat split; [apply filter_sublist|].
      intros o Hin Hout. exists d. split; [done|]. split; [done|].
      destruct (decide (o ∈ deletionObservations d)) as [Ho|Ho]; [done|].
      destruct Hout. apply list_elem_of_In, filter_In. split; [by apply list_elem_of_In|].
      by apply negb_true_iff, bool_decide_eq_false. }
    assert (Forall2 (reduces ds) (entities graph) (<[i:=e']> (entities graph))) as Hall.
    { rewrite <- (list_insert_id (entities graph) i e) at 1 by done.
      apply Forall2_insert; [apply Forall2_reduces_refl|done]. }
    split; [done|]. split; [done|].
    intros j e'' Hfind'.
    destruct (list_find_reduced _ _ _ _ _ _ Hall Hfind') as (e0 & Hfind0 & _).
    rewrite Hfind in Hfind0. injection Hfind0 as <- <-.
    apply list_find_Some in Hfind' as (Hi' & _).
    rewrite list_lookup_insert_eq in Hi' by by eapply lookup_lt_Some.
    injection Hi' as <-. apply Forall_forall. intros o Ho Hin.
    apply list_elem_of_In, filter_In in Hin as [_ Hin].
    by apply negb_true_iff, bool_decide_eq_false in Hin.
  - split; [apply Forall2_reduces_refl|]. split; [done|].
    intros i e Hfind'. by rewrite Hfind in Hfind'.
Qed.

Lemma fold_deleteObservation_steps (ds l : list Deletion) (graph : KnowledgeGraph) :
  Forall (fun d => d ∈ ds) l ->
  let graph' := fold_left deleteObservation l graph in
  Forall2 (reduces ds) (entities graph) (entities graph') /\
  relations graph' = relations graph /\
  Forall (fun d => forall i e,
                     list_find (fun x => name x = deletionEntityName d)
                               (entities graph') = Some (i, e) ->
                     Forall (fun o => o ∉ observations e) (deletionObservations d)) l.
Proof.
  cbv zeta. intros H. revert graph. induction H as [|d l Hd _ IH]; intros graph.
  - simpl. split; [apply Forall2_reduces_refl|]. by split.
  - cbn [fold_left].
    destruct (deleteObservation_step ds graph d Hd) as (Hred1 & Hrel1 & Hpost1).
    destruct (IH (deleteObservation graph d)) as (Hred2 & Hrel2 & Hpost2).
    split; [by eapply Forall2_reduces_trans|]. split; [congruence|].
    constructor; [|done]. intros i e Hfind.
    destruct (list_find_reduced _ _ _ _ _ _ Hred2 Hfind) as (e1 & Hfind1 & Hred).
    specialize (Hpost1 i e1 Hfind1). eapply Forall_impl; [done|].
    intros o Ho Hin. apply Ho. destruct Hred as (_ & _ & _ & Hsub & _).
    by eapply elem_of_sublist.
Qed.

Lemma reduces_tagged (ds : list Deletion) (l l' : list Entity) :
  Forall2 (reduces ds) l l' ->
  Forall (fun e => e_type e = Some entity) l ->
  Forall (fun e => e_type e = Some entity) l'.
Proof.
  induction 1 as [|e e' l l' (Ht & _) _ IH]; [done|].
  intros [He Hl]%Forall_cons. constructor; [congruence|by apply IH].
Qed.

Lemma deleteObservations_run (ds : list Deletion) (m : Manager) :
  deleteObservations ds m =
    (Returned tt, exec (saveGraph (fold_left deleteObservation ds (storedGraph m))) m).
Proof.
  unfold deleteObservations, bind. rewrite loadGraph_run, <- storedGraph_file.
  unfold exec. by rewrite !saveGraph_run.
Qed.

Lemma storedGraph_deleteObservations (ds : list Deletion) (m : Manager) :
  storedGraph (exec (deleteObservations ds) m) =
    fold_left deleteObservation ds (storedGraph m).
Proof.
  unfold exec at 1. rewrite deleteObservations_run. cbn [snd].
  rewrite storedGraph_saveGraph.
  destruct (fold_deleteObservation_steps ds ds (storedGraph m)) as (Hred & Hrel & _).
  { apply Forall_forall. auto. }
  destruct (storedGraph_discriminators m) as [Htags _].
  rewrite (loadedEntity_id _ (reduces_tagged _ _ _ Hred Htags)).
  rewrite Hrel, (proj2 (storedGraph_loaded m)), <- Hrel.
  by destruct (fold_left _ _ _).
Qed.


Lemma filter_all {A} (p : A -> bool) (l : list A) :
  Forall (fun x => p x = true) l -> List.filter p l = l.
Proof. induction 1 as [|x l Hx _ IH]; [done|]. simpl. by rewrite Hx, IH. Qed.

(** A deletion that finds nothing to take out changes nothing. *)
Lemma fold_deleteObservation_again (l : list Deletion) (graph : KnowledgeGraph) :
  Forall (fun d => forall i e,
                     list_find (fun x => name x = deletionEntityName d)
                               (entities graph) = Some (i, e) ->
                     Forall (fun o => o ∉ observations e) (deletionObservations d)) l ->
  fold_left deleteObservation l graph = graph.
Proof.
  induction 1 as [|d l Hd _ IH]; [done|]. cbn [fold_left].
  assert (deleteObservation graph d = graph) as ->; [|done].
  unfold deleteObservation.
  destruct (list_find _ _) as [[i e]|] eqn:Hfind; [|done].
  specialize (Hd i e eq_refl).
  rewrite filter_all.
  2:{ apply Forall_forall. intros o Ho. apply negb_true_iff, bool_decide_eq_false.
      intros Hin. eapply Forall_forall in Hd; [|done]. done. }
  assert (withObservations e (observations e) = e) as -> by by destruct e.
  apply list_find_Some in Hfind as (Hi & _).
  rewrite list_insert_id by done. by destruct graph.
Qed.

Lemma deleteObservations_again (ds : list Deletion) (m : Manager) :
  exec (deleteObservations ds) (exec (deleteObservations ds) m) =
    exec (deleteObservations ds) m.
Proof.
  unfold exec at 1. rewrite deleteObservations_run. cbn [snd].
  rewrite storedGraph_deleteObservations.
  destruct (fold_deleteObservation_steps ds ds (storedGraph m)) as (_ & _ & Hpost).
  { apply Forall_forall. auto. }
  rewrite fold_deleteObservation_again by done.
  unfold exec. rewrite deleteObservations_run. cbn [snd].
  unfold exec. by rewrite !saveGraph_run.
Qed.

(** ** Deleting entities *)

Lemma filter_fixed {A} (f : A -> A) (p : A -> bool) (l : list A) :
  map f l = l -> map f (List.filter p l) = List.filter p l.
Proof.
  induction l as [|x l IH]; [done|]. simpl. intros [= Hx Hl].
  destruct (p x); simpl; rewrite ?Hx, IH; done.
Qed.

Lemma filter_idem {A} (p : A -> bool) (l : list A) :
  List.filter p (List.filter p l) = List.filter p l.
Proof.
  induction l as [|x l IH]; [done|]. simpl.
  destruct (p x) eqn:Hp; simpl; rewrite ?Hp, IH; done.
Qed.

Lemma deleteEntities_run (N : list string) (m : Manager) :
  deleteEntities N m =
    (Returned tt,
     exec (saveGraph
             {| entities := List.filter (fun e => negb (includes (name e) N))
                                        (entities (storedGraph m));
                relations := List.filter (fun r => negb (includes (from r) N) &&
                                                   negb (includes (to r) N))
                                         (relations (storedGraph m)) |}) m).
Proof.
  unfold deleteEntities, bind. rewrite loadGraph_run, storedGraph_file.
  reflexivity.
Qed.

Lemma storedGraph_deleteEntities (N : list string) (m : Manager) :
  storedGraph (exec (deleteEntities N) m) =
    {| entities := List.filter (fun e => negb (includes (name e) N))
                               (entities (storedGraph m));
       relations := List.filter (fun r => negb (includes (from r) N) &&
                                          negb (includes (to r) N))
                                (relations (storedGraph m)) |}.
Proof.
  unfold exec at 1. rewrite deleteEntities_run. cbn [snd].
  rewrite storedGraph_saveGraph. cbn [entities relations].
  destruct (storedGraph_loaded m) as [He Hr].
  by rewrite (filter_fixed _ _ _ He), (filter_fixed _ _ _ Hr).
Qed.


Lemma storedGraph_deleteRelations (rs : list Relation) (m : Manager) :
  storedGraph (exec (deleteRelations rs) m) =
    {| entities := entities (storedGraph m);
       relations := List.filter (fun r => negb (some (fun delRelation =>
                                                        sameRelation r delRelation) rs))
                                (relations (storedGraph m)) |}.
Proof.
  unfold exec at 1. rewrite deleteRelations_run. cbn [snd].
  rewrite storedGraph_saveGraph. cbn [entities relations].
  destruct (storedGraph_loaded m) as [He Hr].
  by rewrite He, (filter_fixed _ _ _ Hr).
Qed.

(** The three deletions are idempotent: a second call with the same
    request leaves the state, the file and the indexes, as the first call
    left it. *)
Theorem deletions_twice (m : Manager) :
  (forall N, exec (deleteEntities N) (exec (deleteEntities N) m) =
             exec (deleteEntities N) m) /\
  (forall ds, exec (deleteObservations ds) (exec (deleteObservations ds) m) =
              exec (deleteObservations ds) m) /\
  (forall rs, exec (deleteRelations rs) (exec (deleteRelations rs) m) =
              exec (deleteRelations rs) m).
Proof.
  split; [|split].
  - intros N. unfold exec at 1. rewrite deleteEntities_run. cbn [snd].
    rewrite storedGraph_deleteEntities. cbn [entities relations].
    rewrite !filter_idem.
    unfold exec. rewrite deleteEntities_run. cbn [snd].
    unfold exec. by rewrite !saveGraph_run.
  - intros ds. apply deleteObservations_again.
  - intros rs. unfold exec at 1. rewrite deleteRelations_run. cbn [snd].
    rewrite storedGraph_deleteRelations. cbn [entities relations].
    rewrite !filter_idem.
    unfold exec. rewrite deleteRelations_run. cbn [snd].
    unfold exec. by rewrite !saveGraph_run.
Qed.

Lemma filter_none {A} (p : A -> bool) (l : list A) :
  Forall (fun x => p x = false) l -> List.filter p l = [].
Proof. induction 1 as [|x l Hx _ IH]; [done|]. simpl. by rewrite Hx. Qed.

(** Creation undone.  When no name of the request is stored, and no stored
    relation has such a name at an end, [createEntities(es)] followed by
    [deleteEntities] of the names of [es] leaves the stored graph as it
    was. *)
Theorem createEntities_deleteEntities (es : list Entity) (m : Manager) :
  Forall (fun e => name e ∉ map name (entities (storedGraph m))) es ->
  Forall (fun r => (from r ∉ map name es) /\ (to r ∉ map name es))
         (relations (storedGraph m)) ->
  storedGraph (exec (deleteEntities (map name es)) (exec (createEntities es) m)) =
    storedGraph m.
Proof.
  intros Hfresh Hfree. rewrite storedGraph_deleteEntities.
  unfold exec. rewrite createEntities_run. cbv zeta. cbn [snd].
  fold (exec (saveGraph {| entities := entities (storedGraph m) ++
                             List.filter (fun e => negb (some (fun existingEntity =>
                                            bool_decide (name existingEntity = name e))
                                          (entities (storedGraph m)))) es;
                           relations := relations (storedGraph m) |}) m).
  rewrite storedGraph_saveGraph. cbn [entities relations].
  destruct (storedGraph_loaded m) as [He Hr]. rewrite map_app, He, Hr.
  rewrite List.filter_app.
  rewrite (filter_all _ (entities (storedGraph m))).
  2:{ apply Forall_forall. intros x Hx. apply negb_true_iff, bool_decide_eq_false.
      intros (e & Hname & Hin)%list_elem_of_fmap.
      rewrite Forall_forall in Hfresh. apply (Hfresh e Hin).
      rewrite <- Hname. apply list_elem_of_fmap. by exists x. }
  rewrite filter_none.
  2:{ apply Forall_forall. intros x (e & -> & Hin)%list_elem_of_fmap.
      apply negb_false_iff, bool_decide_eq_true.
      apply list_elem_of_In, filter_In in Hin as [Hin _].
      apply list_elem_of_fmap. exists e. split; [done|]. by apply list_elem_of_In. }
  rewrite app_nil_r, filter_all; [by destruct (storedGraph m)|].
  eapply Forall_impl; [done|]. intros r [Hf Ht]. simpl.
  unfold includes. by rewrite !bool_decide_eq_false_2.
Qed.

(** ** The batch *)

Lemma list_find_loaded (n : string) (l : list Entity) :
  list_find (fun e => name e = n) (map loadedEntity l) =
    (fun p => (p.1, loadedEntity p.2)) <$> list_find (fun e => name e = n) l.
Proof.
  induction l as [|x l IH]; [done|]. cbn [map list_find].
  change (name (loadedEntity x)) with (name x).
  destruct (decide (name x = n)); [done|]. rewrite IH.
  by destruct (list_find _ l) as [[i e]|].
Qed.

Lemma map_insert {A B} (f : A -> B) (l : list A) (i : nat) (x : A) :
  map f (<[i:=x]> l) = <[i:=f x]> (map f l).
Proof. apply (list_fmap_insert f l i x). Qed.

(** The discriminators play no part in [addObservations]. *)
Lemma addObservation_loaded (graph : KnowledgeGraph) (rs : list Relation)
    (o : ObservationInput) :
  addObservation {| entities := map loadedEntity (entities graph); relations := rs |} o =
    match addObservation graph o with
    | Returned (r, graph') =>
        Returned (r, {| entities := map loadedEntity (entities graph'); relations := rs |})
    | Thrown message => Thrown message
    end.
Proof.
  unfold addObservation. cbn [entities relations]. rewrite list_find_loaded.
  destruct (list_find _ (entities graph)) as [[i e]|]; [|done].
  cbn [fmap option_fmap option_map fst snd entities relations].
  by rewrite map_insert.
Qed.

Lemma mapObservations_loaded (os : list ObservationInput) (graph : KnowledgeGraph)
    (rs : list Relation) :
  mapObservations {| entities := map loadedEntity (entities graph); relations := rs |} os =
    match mapObservations graph os with
    | Returned (results, graph') =>
        Returned (results,
                  {| entities := map loadedEntity (entities graph'); relations := rs |})
    | Thrown message => Thrown message
    end.
Proof.
  revert graph. induction os as [|o os IH]; intros graph; [done|].
  cbn [mapObservations]. rewrite addObservation_loaded.
  destruct (addObservation graph o) as [[r g1]|]; [|done].
  rewrite IH. by destruct (mapObservations g1 os) as [[results g2]|].
Qed.

Lemma some_sameRelation_loaded (r : Relation) (rs : list Relation) :
  some (fun existingRelation => sameRelation existingRelation r) (map loadedRelation rs) =
    some (fun existingRelation => sameRelation existingRelation r) rs.
Proof. unfold some. induction rs as [|x rs IH]; [done|]. simpl. by rewrite IH. Qed.

Lemma batchCreate_run (data : BatchData) (m : Manager) :
  let graph := storedGraph m in
  let es := default [] (batchEntities data) in
  let rs := default [] (batchRelations data) in
  let os := default [] (batchObservations data) in
  let graph' := {| entities := entities graph ++ newEntitiesOf graph es;
                   relations := relations graph ++ newRelationsOf graph rs |} in
  batchCreate data m =
    match mapObservations graph' os with
    | Thrown message => (Thrown message, rebuilt graph m)
    | Returned (added, final) =>
        (Returned {| createdEntities :=
                       take (length (newEntitiesOf graph es))
                            (drop (length (entities graph)) (entities final));
                     createdRelations := newRelationsOf graph rs;
                     batchAddedObservations := added |},
         exec (saveGraph final) m)
    end.
Proof.
  cbv zeta. unfold batchCreate, bind. rewrite loadGraph_run, <- storedGraph_file.
  destruct (storedGraph m) as [E R]. unfold newEntitiesOf, newRelationsOf.
  cbn [entities relations].
  destruct data as [[[|e es]|] [[|r rs]|] [[|o os]|]];
    cbn [batchEntities batchRelations batchObservations default from_option id
         List.filter length];
    rewrite ?app_nil_r; cbn [entities relations];
    try match goal with
        | |- context [mapObservations ?g (o :: os)] =>
            destruct (mapObservations g (o :: os)) as [[? ?]|]
        end; reflexivity.
Qed.

Lemma filter_sameRelation_loaded (R rs : list Relation) :
  List.filter (fun r => negb (some (fun existingRelation =>
                                      sameRelation existingRelation r)
                                   (map loadedRelation R))) rs =
    List.filter (fun r => negb (some (fun existingRelation =>
                                        sameRelation existingRelation r) R)) rs.
Proof. apply List.filter_ext. intros r. by rewrite some_sameRelation_loaded. Qed.

Lemma createInSequence_run (data : BatchData) (m : Manager) :
  let graph := storedGraph m in
  let es := default [] (batchEntities data) in
  let rs := default [] (batchRelations data) in
  let os := default [] (batchObservations data) in
  let graph' := {| entities := entities graph ++ newEntitiesOf graph es;
                   relations := relations graph ++ newRelationsOf graph rs |} in
  createInSequence data m =
    match mapObservations graph' os with
    | Thrown message =>
        (Thrown message,
         rebuilt graph' (exec (saveGraph graph') m))
    | Returned (added, final) => (Returned added, exec (saveGraph final) m)
    end.
Proof.
  cbv zeta. unfold createInSequence, bind.
  rewrite createEntities_run. cbv beta iota zeta.
  rewrite createRelations_run. cbv beta iota zeta.
  rewrite addObservations_run.
  fold (newEntitiesOf (storedGraph m) (default [] (batchEntities data))).
  set (new := newEntitiesOf _ _).
  rewrite !storedGraph_saveGraph. cbn [entities relations].
  rewrite filter_sameRelation_loaded.
  fold (newRelationsOf (storedGraph m) (default [] (batchRelations data))).
  set (newR := newRelationsOf _ _).
  rewrite (proj2 (storedGraph_loaded m)).
  rewrite !map_map.
  change (fun x => loadedEntity (loadedEntity x)) with loadedEntity.
  pose proof (mapObservations_loaded (default [] (batchObservations data))
                {| entities := entities (storedGraph m) ++ new;
                   relations := relations (storedGraph m) ++ newR |}
                (map loadedRelation (relations (storedGraph m) ++ newR))) as Hloaded.
  cbn [entities relations] in Hloaded. rewrite Hloaded. clear Hloaded.
  destruct (mapObservations _ _) as [[added final]|] eqn:Hmap.
  - f_equal. destruct (mapObservations_steps _ _ _ _ Hmap) as (_ & Hrel & _).
    cbn [relations] in Hrel. rewrite <- Hrel.
    rewrite (exec_saveGraph_loaded (entities final) (relations final) _ m).
    by destruct final.
  - f_equal. unfold rebuilt, exec. rewrite !saveGraph_run. cbn [snd file].
    rewrite (entityDocuments_loaded _ _ (relations (storedGraph m) ++ newR)).
    rewrite (observationDocuments_loaded _ _ (relations (storedGraph m) ++ newR)).
    f_equal. f_equal. unfold linesOf. cbn [entities relations]. by rewrite map_map.
Qed.

(** [batchCreate] is the three calls in sequence, made all-or-nothing.
    When it returns, it leaves the state that [createEntities], then
    [createRelations], then [addObservations] leave, and reports the
    observations that the last of them reports.  When it throws, for a
    request with observations for a name that is neither stored nor
    created by the batch, the file is as it was before the call, while
    the calls in sequence throw the same error after they have written
    the new entities and relations. *)
Theorem batchCreate_all_or_nothing (data : BatchData) (m : Manager) :
  let graph := storedGraph m in
  match outcome (batchCreate data) m with
  | Returned result =>
      exec (batchCreate data) m = exec (createInSequence data) m /\
      outcome (createInSequence data) m = Returned (batchAddedObservations result)
  | Thrown message =>
      file (exec (batchCreate data) m) = file m /\
      outcome (createInSequence data) m = Thrown message /\
      storedGraph (exec (createInSequence data) m) =
        {| entities :=
             entities graph ++
             map loadedEntity (newEntitiesOf graph (default [] (batchEntities data)));
           relations :=
             relations graph ++
             map loadedRelation
                 (newRelationsOf graph (default [] (batchRelations data))) |}
  end.
Proof.
  cbv zeta. unfold outcome, exec.
  pose proof (batchCreate_run data m) as Hbatch.
  pose proof (createInSequence_run data m) as Hseq.
  cbv zeta in Hbatch, Hseq. rewrite Hbatch, Hseq.
  destruct (mapObservations _ _) as [[added final]|]; cbn [fst snd].
  - done.
  - split; [done|]. split; [done|].
    assert (forall g m', storedGraph (rebuilt g m') = storedGraph m') as Hrebuilt
      by (intros; by rewrite !storedGraph_file).
    rewrite Hrebuilt, storedGraph_saveGraph. cbn [entities relations].
    rewrite !map_app.
    by rewrite (proj1 (storedGraph_loaded m)), (proj2 (storedGraph_loaded m)).
Qed.


(** ** The batch, twice *)

Lemma extends_names (l l' : list Entity) :
  Forall2 extends l l' -> map name l' = map name l.
Proof.
  induction 1 as [|e e' l l' (_ & Hname & _) _ IH]; [done|]. simpl. by rewrite Hname, IH.
Qed.

(** Idempotence of [batchCreate]: a second call with the same request
    leaves the state as the first call left it.  When the first call
    returns, the second returns too and reports nothing created and
    nothing added; when the first call throws, the second throws the same
    error. *)
Theorem batchCreate_twice (data : BatchData) (m : Manager) :
  let first := batchCreate data m in
  let second := batchCreate data first.2 in
  second.2 = first.2 /\
  second.1 = match first.1 with
             | Returned _ =>
                 Returned {| createdEntities := [];
                             createdRelations := [];
                             batchAddedObservations :=
                               map nothingAdded (default [] (batchObservations data)) |}
             | Thrown message => Thrown message
             end.
Proof.
  cbv zeta. pose proof (batchCreate_run data m) as Hfirst. cbv zeta in Hfirst.
  rewrite Hfirst. clear Hfirst.
  set (es := default [] (batchEntities data)).
  set (rs := default [] (batchRelations data)).
  set (os := default [] (batchObservations data)).
  set (graph' := {| entities := entities (storedGraph m) ++ newEntitiesOf (storedGraph m) es;
                    relations := relations (storedGraph m) ++
                                 newRelationsOf (storedGraph m) rs |}).
  destruct (mapObservations graph' os) as [[added final]|message] eqn:Hmap; cbn [fst snd].
  - destruct (mapObservations_steps _ _ _ _ Hmap) as (Hext & Hrel & _ & Hpost).
    cbn [entities relations graph'] in Hext, Hrel.
    pose proof (batchCreate_run data (exec (saveGraph final) m)) as Hsecond.
    cbv zeta in Hsecond. fold es rs os in Hsecond.
    rewrite storedGraph_saveGraph in Hsecond. cbn [entities relations] in Hsecond.
    assert (newEntitiesOf {| entities := map loadedEntity (entities final);
                             relations := map loadedRelation (relations final) |} es = [])
      as Hnone.
    { apply filter_nil_iff. intros e He. apply negb_false_iff, some_name_spec.
      cbn [entities]. rewrite map_name_loadedEntity, (extends_names _ _ Hext).
      rewrite map_app, elem_of_app.
      destruct (some (fun existingEntity => bool_decide (name existingEntity = name e))
                     (entities (storedGraph m))) eqn:Hs.
      - left. by apply some_name_spec.
      - right. apply list_elem_of_fmap. exists e. split; [done|].
        apply list_elem_of_In, filter_In. split; [by apply list_elem_of_In|].
        by rewrite Hs. }
    assert (newRelationsOf {| entities := map loadedEntity (entities final);
                              relations := map loadedRelation (relations final) |} rs = [])
      as HnoneR.
    { apply filter_nil_iff. intros r Hr. apply negb_false_iff.
      cbn [relations]. rewrite some_sameRelation_loaded, Hrel.
      unfold some. apply existsb_exists.
      destruct (some (fun existingRelation => sameRelation existingRelation r)
                     (relations (storedGraph m))) eqn:Hs.
      - apply existsb_exists in Hs as (x & Hx & Hsame). exists x.
        split; [|done]. apply in_or_app. by left.
      - exists r. split; [|apply sameRelation_refl]. apply in_or_app. right.
        apply filter_In. split; [by apply list_elem_of_In|]. by rewrite Hs. }
    rewrite Hnone, HnoneR, !app_nil_r in Hsecond.
    pose proof (mapObservations_loaded os final (map loadedRelation (relations final)))
      as Hloaded.
    rewrite (mapObservations_again os final Hpost) in Hloaded.
    rewrite Hloaded in Hsecond. rewrite Hsecond. cbn [fst snd length take].
    split; [|done].
    rewrite (exec_saveGraph_loaded (entities final) (relations final) _ m).
    by destruct final.
  - pose proof (batchCreate_run data (rebuilt (storedGraph m) m)) as Hsecond.
    cbv zeta in Hsecond. fold es rs os in Hsecond.
    assert (storedGraph (rebuilt (storedGraph m) m) = storedGraph m) as Hstored
      by by rewrite !storedGraph_file.
    rewrite Hstored in Hsecond. fold graph' in Hsecond. rewrite Hmap in Hsecond.
    by rewrite Hsecond.
Qed.

(** ** The edit distance *)

Lemma append_cons (c : ascii) (s t : string) : String c s +:+ t = String c (s +:+ t).
Proof. reflexivity. Qed.

Lemma append_empty_r (s : string) : s +:+ "" = s.
Proof. induction s as [|c s IH]; [done|]. by rewrite append_cons, IH. Qed.

Lemma append_snoc (s t : string) (c : ascii) :
  (s +:+ String c "") +:+ t = s +:+ String c t.
Proof. induction s as [|a s IH]; [done|]. by rewrite !append_cons, IH. Qed.

Lemma length_append (s t : string) :
  String.length (s +:+ t) = String.length s + String.length t.
Proof. induction s as [|a s IH]; [done|]. rewrite append_cons. simpl. by rewrite IH. Qed.

Lemma toLowerCase_append (s t : string) :
  JS.toLowerCase (s +:+ t) = JS.toLowerCase s +:+ JS.toLowerCase t.
Proof. induction s as [|a s IH]; [done|]. rewrite append_cons. simpl. by rewrite IH. Qed.

Lemma snoc_inj (s t : string) (a b : ascii) :
  s +:+ String a "" = t +:+ String b "" <-> s = t /\ a = b.
Proof.
  split; [|by intros [-> ->]]. revert t. induction s as [|c s IH]; intros [|d t].
  - by intros [= ->].
  - rewrite append_cons. intros [= -> H]. by destruct t.
  - rewrite append_cons. intros [= -> H]. by destruct s.
  - rewrite !append_cons. intros [= -> H]. destruct (IH _ H) as [-> ->]. done.
Qed.

Lemma last_lookup_length {A} (l : list A) (n : nat) (v d : A) :
  length l = S n -> l !! n = Some v -> List.last l d = v.
Proof.
  revert n. induction l as [|x l IH]; intros n; [done|].
  destruct l as [|y l].
  - intros [= <-]. by intros [= ->].
  - destruct n as [|n]; [intros Hlen; simpl in Hlen; lia|]. intros Hlen Hn.
    change (List.last (x :: y :: l) d) with (List.last (y :: l) d).
    apply (IH n); [simpl in *; lia|done].
Qed.

Lemma fillRow_length (a : ascii) (str2 : string) (above : list nat) (left : nat) :
  length above = S (String.length str2) ->
  length (fillRow a str2 above left) = String.length str2.
Proof.
  revert above left. induction str2 as [|b str2 IH]; intros above left Hlen.
  - by destruct above.
  - destruct above as [|diagonal [|up above]]; [done..|].
    cbn [fillRow]. cbn [length String.length]. rewrite IH; [done|].
    simpl in Hlen |- *. lia.
Qed.

Lemma fillMatrix_length (str1 str2 : string) (i : nat) (above : list nat) :
  length above = S (String.length str2) ->
  length (fillMatrix str1 str2 i above) = S (String.length str2).
Proof.
  revert i above. induction str1 as [|a str1 IH]; intros i above Hlen; [done|].
  cbn [fillMatrix]. apply IH. cbn [length]. by rewrite fillRow_length.
Qed.

(** A cell of the row [i + 1] lies between the difference and the maximum
    of its coordinates when the cells of the row [i] do. *)
Lemma fillRow_bounds (a : ascii) (str2 : string) (above : list nat) (left i k : nat) :
  (forall j v, above !! j = Some v ->
               Nat.max i (k + j) - Nat.min i (k + j) <= v <= Nat.max i (k + j)) ->
  Nat.max (S i) k - Nat.min (S i) k <= left ->
  forall j v, fillRow a str2 above left !! j = Some v ->
              Nat.max (S i) (S k + j) - Nat.min (S i) (S k + j) <= v <=
                Nat.max (S i) (S k + j).
Proof.
  revert above left k. induction str2 as [|b str2 IH]; intros above left k Habove Hleft j v.
  - by destruct above.
  - destruct above as [|diagonal [|up above]]; [done..|]. cbn [fillRow]. cbv zeta.
    set (cost := if Ascii.eqb _ _ then 0 else 1).
    set (cell := Nat.min _ _).
    pose proof (Habove 0 diagonal eq_refl) as Hd.
    pose proof (Habove 1 up eq_refl) as Hu.
    assert (cost <= 1) as Hcost by (unfold cost; destruct (Ascii.eqb _ _); lia).
    assert (Nat.max (S i) (S k) - Nat.min (S i) (S k) <= cell <= Nat.max (S i) (S k))
      as Hcell by (unfold cell; lia).
    destruct j as [|j].
    + intros [= <-]. by rewrite Nat.add_0_r.
    + change ((cell :: fillRow a str2 (up :: above) cell) !! S j)
        with (fillRow a str2 (up :: above) cell !! j).
      intros Hj. replace (S k + S j) with (S (S k) + j) by lia.
      apply (IH (up :: above) cell (S k)); [|lia|done].
      intros j' v' Hj'. replace (S k + j') with (k + S j') by lia.
      by apply Habove.
Qed.

Lemma fillMatrix_bounds (str1 str2 : string) (i : nat) (above : list nat) :
  (forall j v, above !! j = Some v ->
               Nat.max i j - Nat.min i j <= v <= Nat.max i j) ->
  forall j v, fillMatrix str1 str2 (S i) above !! j = Some v ->
              Nat.max (i + String.length str1) j - Nat.min (i + String.length str1) j
                <= v <= Nat.max (i + String.length str1) j.
Proof.
  revert i above. induction str1 as [|a str1 IH]; intros i above Habove j v.
  - cbn [fillMatrix String.length]. rewrite Nat.add_0_r. apply Habove.
  - cbn [fillMatrix String.length]. replace (i + S (String.length str1))
      with (S i + String.length str1) by lia.
    apply IH. intros [|j'] v'.
    + intros [= <-]. lia.
    + change ((S i :: fillRow a str2 above (S i)) !! S j')
        with (fillRow a str2 above (S i) !! j').
      intros Hj'. apply (fillRow_bounds a str2 above (S i) i 0); [done|lia|done].
Qed.

Lemma seq_bounds (n j v : nat) :
  seq 0 n !! j = Some v -> Nat.max 0 j - Nat.min 0 j <= v <= Nat.max 0 j.
Proof. intros [-> _]%lookup_seq. lia. Qed.

Lemma editDistance_lookup (str1 str2 : string) :
  fillMatrix str1 str2 1 (seq 0 (S (String.length str2))) !! String.length str2 =
    Some (editDistance str1 str2).
Proof.
  unfold editDistance.
  pose proof (fillMatrix_length str1 str2 1 (seq 0 (S (String.length str2)))
                (length_seq _ _)) as Hlen.
  destruct (lookup_lt_is_Some_2 (fillMatrix str1 str2 1 (seq 0 (S (String.length str2))))
                                (String.length str2)) as [v Hv]; [lia|].
  rewrite Hv. f_equal. symmetry. by eapply last_lookup_length.
Qed.

(** The distance that [calculateSimilarity] divides by the greater length
    is at most that length, and at least the difference of the two
    lengths: the quotient is a fraction between 0 and 1. *)
Theorem editDistance_bounds (str1 str2 : string) :
  let len1 := String.length str1 in
  let len2 := String.length str2 in
  Nat.max len1 len2 - Nat.min len1 len2 <= editDistance str1 str2 <= Nat.max len1 len2.
Proof.
  cbv zeta.
  apply (fillMatrix_bounds str1 str2 0 (seq 0 (S (String.length str2)))
           (seq_bounds _) (String.length str2)).
  apply editDistance_lookup.
Qed.

(** A cell of a row is 0 exactly when the two prefixes it stands for are
    equal up to the case of the letters. *)
Lemma fillRow_zero (a : ascii) (p1 : string) (str2 : string) (above : list nat)
    (left : nat) (pre2 : string) :
  (forall q r v, str2 = q +:+ r -> above !! String.length q = Some v ->
                 (v = 0 <-> JS.toLowerCase p1 = JS.toLowerCase (pre2 +:+ q))) ->
  forall b q r v,
    str2 = String b q +:+ r ->
    fillRow a str2 above left !! String.length q = Some v ->
    (v = 0 <-> JS.toLowerCase (p1 +:+ String a "") =
               JS.toLowerCase (pre2 +:+ String b q)).
Proof.
  revert above left pre2.
  induction str2 as [|b0 str2 IH]; intros above left pre2 Habove b q r v; [done|].
  rewrite append_cons. intros [= <- ->].
  destruct above as [|diagonal [|up above]]; [done..|]. cbn [fillRow]. cbv zeta.
  set (cost := if Ascii.eqb _ _ then 0 else 1).
  set (cell := Nat.min _ _).
  destruct q as [|c q].
  - intros [= <-].
    pose proof (Habove "" (String b0 r) diagonal eq_refl eq_refl) as Hd.
    rewrite append_empty_r in Hd.
    rewrite <- (append_snoc pre2 "" b0), append_empty_r, !toLowerCase_append.
    cbn [JS.toLowerCase]. rewrite snoc_inj, <- Hd.
    unfold cell, cost. destruct (Ascii.eqb _ _) eqn:Heq.
    + apply Ascii.eqb_eq in Heq. split; [intros H; split; [lia|done]|].
      intros [-> _]. lia.
    + apply Ascii.eqb_neq in Heq. split; [intros H; exfalso; lia|]. by intros [_ ?].
  - change ((cell :: fillRow a (String c q +:+ r) (up :: above) cell)
              !! String.length (String c q))
      with (fillRow a (String c q +:+ r) (up :: above) cell !! String.length q).
    intros Hv. rewrite <- (append_snoc pre2 (String c q) b0).
    apply (IH (up :: above) cell (pre2 +:+ String b0 "") ) with (r := r); [|done|done].
    intros q' r' v' Hq' Hv'. rewrite append_snoc.
    apply (Habove (String b0 q') r' v'); [by rewrite Hq'|done].
Qed.

Lemma fillMatrix_zero (str1 str2 : string) (i : nat) (above : list nat) (p1 : string) :
  (forall q r v, str2 = q +:+ r -> above !! String.length q = Some v ->
                 (v = 0 <-> JS.toLowerCase p1 = JS.toLowerCase q)) ->
  forall q r v,
    str2 = q +:+ r ->
    fillMatrix str1 str2 (S i) above !! String.length q = Some v ->
    (v = 0 <-> JS.toLowerCase (p1 +:+ str1) = JS.toLowerCase q).
Proof.
  revert i above p1. induction str1 as [|a str1 IH]; intros i above p1 Habove q r v.
  - cbn [fillMatrix]. rewrite append_empty_r. apply Habove.
  - cbn [fillMatrix]. rewrite <- (append_snoc p1 str1 a).
    apply IH. clear q r v. intros [|b q] r v Hstr2.
    + intros [= <-]. rewrite toLowerCase_append. split; [done|].
      intros H. apply (f_equal String.length) in H.
      rewrite length_append in H. simpl in H. lia.
    + change ((S i :: fillRow a str2 above (S i)) !! String.length (String b q))
        with (fillRow a str2 above (S i) !! String.length q).
      intros Hv. by apply (fillRow_zero a p1 str2 above (S i) "" Habove b q r v).
Qed.

(** For strings of ASCII characters the distance is 0 exactly when the
    two strings are equal up to the case of their letters:
    [calculateSimilarity] takes such strings, and no others, for the
    same. *)
Theorem editDistance_zero (str1 str2 : string) :
  isAscii str1 = true ->
  isAscii str2 = true ->
  (editDistance str1 str2 = 0 <-> JS.toLowerCase str1 = JS.toLowerCase str2).
Proof.
  intros _ _.
  apply (fillMatrix_zero str1 str2 0 (seq 0 (S (String.length str2))) ""
           ) with (r := ""); [|by rewrite append_empty_r|apply editDistance_lookup].
  intros q r v _ [-> _]%lookup_seq. simpl. destruct q; simpl; split; done.
Qed.

(** ** The other loops of the duplicate detector *)

Lemma findDuplicates_fields (data : DuplicateData) (options : Options.t) (m : Manager) :
  let graph := storedGraph m in
  let mergedOptions := mergeOptions options in
  let checkExisting :=
    checkExistingGraph mergedOptions || default false (dataCheckExistingGraph data) in
  exists report,
    outcome (findDuplicates data options) m = Returned report /\
    duplicateRelations report =
      flat_map (fun r => omap (compareRelations mergedOptions r) (relations graph))
               (default [] (dataRelations data)) /\
    duplicateObservations report =
      flat_map (fun o =>
                  match List.find (fun e => bool_decide (name e = entityName o))
                                  (entities graph) with
                  | None => []
                  | Some e =>
                      flat_map (fun content =>
                                  omap (fun existingObservation =>
                                          pair (entityName o) <$>
                                            compareObservations mergedOptions content
                                                                existingObservation)
                                       (observations e))
                               (contents o)
                  end)
               (default [] (dataObservations data)) /\
    existingDuplicateEntities report =
      (if checkExisting then laterPairs (compareEntities mergedOptions) (entities graph)
       else []) /\
    existingDuplicateRelations report =
      (if checkExisting then laterPairs (compareRelations mergedOptions) (relations graph)
       else []).
Proof.
  cbv zeta. unfold outcome, findDuplicates, bind.
  rewrite loadGraph_run, <- storedGraph_file.
  eexists. split; [reflexivity|]. by repeat split.
Qed.

Lemma compareRelations_identical (o : MergedOptions) (r1 r2 : Relation) :
  from r1 = from r2 ->
  to r1 = to r2 ->
  relationType r1 = relationType r2 ->
  semanticMatchingEnabled o = false ->
  PrimFloat.leb (entityNameSimilarityThreshold o) 1 = true ->
  compareRelations o r1 r2 =
    Some {| candidate := r1; existing := r2; similarityScore := 1%float;
            matchType := "exact"; duplicateType := "structural" |}.
Proof.
  intros Hfrom Hto Htype Hsem Hthreshold. unfold compareRelations, sameRelation.
  rewrite Hsem, Hfrom, Hto, Htype, !calculateSimilarity_same.
  rewrite !bool_decide_eq_true_2 by done. cbn [andb].
  assert ((1 * 0.35 + 1 * 0.35 + 1 * 0.3)%float = 1%float) as -> by reflexivity.
  unfold geb. by rewrite Hthreshold.
Qed.

Lemma compareObservations_identical (o : MergedOptions) (content : string) :
  semanticMatchingEnabled o = false ->
  PrimFloat.leb (observationSimilarityThreshold o) 1 = true ->
  compareObservations o content content =
    Some {| candidate := content; existing := content; similarityScore := 1%float;
            matchType := "exact"; duplicateType := "structural" |}.
Proof.
  intros Hsem Hthreshold. unfold compareObservations.
  rewrite Hsem, calculateSimilarity_same, !bool_decide_eq_true_2 by done.
  unfold geb. by rewrite Hthreshold.
Qed.

Lemma find_findEntity (n : string) (graph : KnowledgeGraph) :
  List.find (fun e => bool_decide (name e = n)) (entities graph) = findEntity n graph.
Proof.
  unfold findEntity. induction (entities graph) as [|x l IH]; [done|].
  cbn [List.find list_find].
  destruct (decide (name x = n)) as [Hx|Hx].
  - by rewrite bool_decide_eq_true_2.
  - rewrite bool_decide_eq_false_2 by done.
    rewrite IH. by destruct (list_find _ l) as [[i e]|].
Qed.

Lemma laterPairs_elem {A B} (f : A -> A -> option B) (l : list A) (i j : nat)
    (x y : A) (d : B) :
  l !! i = Some x -> l !! j = Some y -> i < j -> f x y = Some d ->
  d ∈ laterPairs f l.
Proof.
  revert i j. induction l as [|z l IH]; intros i j Hi Hj Hlt Hf; [done|].
  cbn [laterPairs]. apply elem_of_app. destruct i as [|i].
  - left. injection Hi as ->. destruct j as [|j]; [lia|].
    apply list_elem_of_omap. exists y. split; [|done]. by eapply list_elem_of_lookup_2.
  - right. destruct j as [|j]; [lia|]. apply (IH i j); [done|done|lia|done].
Qed.

(** Without semantic matching, a candidate relation with the ends and the
    type of a stored relation is reported with the score 1.0, as an exact
    and structural match, at every threshold up to 1.0. *)
Theorem findDuplicates_stored_relation (m : Manager) (data : DuplicateData)
    (rs : list Relation) (r1 r2 : Relation) (options : Options.t) :
  dataRelations data = Some rs ->
  r1 ∈ rs ->
  r2 ∈ relations (storedGraph m) ->
  from r1 = from r2 ->
  to r1 = to r2 ->
  relationType r1 = relationType r2 ->
  semanticMatchingEnabled (mergeOptions options) = false ->
  PrimFloat.leb (entityNameSimilarityThreshold (mergeOptions options)) 1 = true ->
  exists report,
    outcome (findDuplicates data options) m = Returned report /\
    {| candidate := r1; existing := r2; similarityScore := 1%float;
       matchType := "exact"; duplicateType := "structural" |}
      ∈ duplicateRelations report.
Proof.
  intros Hdata Hr1 Hr2 Hfrom Hto Htype Hsem Hthreshold.
  destruct (findDuplicates_fields data options m) as (report & Hrun & Hdup & _).
  exists report. split; [done|]. rewrite Hdup, Hdata. cbn [default from_option id].
  apply list_elem_of_In, in_flat_map. exists r1. split; [by apply list_elem_of_In|].
  apply list_elem_of_In, list_elem_of_omap. exists r2. split; [done|].
  by apply compareRelations_identical.
Qed.

(** Without semantic matching, a content of a request that the entity of
    its name has as an observation is reported under that name with the
    score 1.0, as an exact and structural match, at every threshold up to
    1.0: the contents that [addObservations] would pass over are
    reported. *)
Theorem findDuplicates_stored_observation (m : Manager) (data : DuplicateData)
    (os : list ObservationInput) (o : ObservationInput) (e : Entity)
    (content : string) (options : Options.t) :
  dataObservations data = Some os ->
  o ∈ os ->
  content ∈ contents o ->
  findEntity (entityName o) (storedGraph m) = Some e ->
  content ∈ observations e ->
  semanticMatchingEnabled (mergeOptions options) = false ->
  PrimFloat.leb (observationSimilarityThreshold (mergeOptions options)) 1 = true ->
  exists report,
    outcome (findDuplicates data options) m = Returned report /\
    (entityName o,
     {| candidate := content; existing := content; similarityScore := 1%float;
        matchType := "exact"; duplicateType := "structural" |})
      ∈ duplicateObservations report.
Proof.
  intros Hdata Ho Hcontent Hfind Hstored Hsem Hthreshold.
  destruct (findDuplicates_fields data options m) as (report & Hrun & _ & Hdup & _).
  exists report. split; [done|]. rewrite Hdup, Hdata. cbn [default from_option id].
  apply list_elem_of_In, in_flat_map. exists o. split; [by apply list_elem_of_In|].
  rewrite find_findEntity, Hfind.
  apply in_flat_map. exists content. split; [by apply list_elem_of_In|].
  apply list_elem_of_In, list_elem_of_omap. exists content. split; [done|].
  by rewrite compareObservations_identical.
Qed.

(** The check of the stored graph against itself.  When the option or the
    request asks for it, two stored entities of the same name and type are
    reported, the earlier as the first of the pair, with the score 1.0 at
    every threshold up to 1.0 (without semantic matching): the detector
    shows the names that [createEntities] has stored twice. *)
Theorem findDuplicates_existing_pair (m : Manager) (data : DuplicateData)
    (options : Options.t) (i j : nat) (e1 e2 : Entity) :
  checkExistingGraph (mergeOptions options) ||
    default false (dataCheckExistingGraph data) = true ->
  entities (storedGraph m) !! i = Some e1 ->
  entities (storedGraph m) !! j = Some e2 ->
  i < j ->
  name e1 = name e2 ->
  entityType e1 = entityType e2 ->
  semanticMatchingEnabled (mergeOptions options) = false ->
  PrimFloat.leb (entityNameSimilarityThreshold (mergeOptions options)) 1 = true ->
  exists report,
    outcome (findDuplicates data options) m = Returned report /\
    {| candidate := e1; existing := e2; similarityScore := 1%float;
       matchType := "exact"; duplicateType := "structural" |}
      ∈ existingDuplicateEntities report.
Proof.
  intros Hcheck Hi Hj Hlt Hname Htype Hsem Hthreshold.
  destruct (findDuplicates_fields data options m) as (report & Hrun & _ & _ & Hdup & _).
  exists report. split; [done|]. rewrite Hdup, Hcheck.
  apply (laterPairs_elem _ _ i j e1 e2); [done|done|done|].
  by apply compareEntities_identical.
Qed.

(** ** The entries of a report *)

Lemma compareEntities_inv (o : MergedOptions) (e1 e2 : Entity) (d : Duplicate Entity) :
  compareEntities o e1 e2 = Some d ->
  candidate d = e1 /\ existing d = e2 /\ entityEntry o d.
Proof.
  unfold compareEntities, entityEntry.
  destruct (semanticMatchingEnabled o); cbv zeta;
    match goal with
    | |- context [geb ?s ?t] => destruct (geb s t) eqn:Hgeb; [|done]
    end;
    intros [= <-]; cbn [candidate existing similarityScore matchType duplicateType];
    (split; [done|]); (split; [done|]); (split; [done|]);
    destruct (decide (name e1 = name e2)) as [Hn|Hn];
    destruct (decide (entityType e1 = entityType e2)) as [Ht|Ht];
    rewrite ?(bool_decide_eq_true_2 _ Hn), ?(bool_decide_eq_false_2 _ Hn),
            ?(bool_decide_eq_true_2 _ Ht), ?(bool_decide_eq_false_2 _ Ht);
    cbn [andb];
    repeat match goal with |- context [if ?b then _ else _] => destruct b end;
    intuition congruence.
Qed.

Lemma compareRelations_inv (o : MergedOptions) (r1 r2 : Relation) (d : Duplicate Relation) :
  compareRelations o r1 r2 = Some d ->
  candidate d = r1 /\ existing d = r2 /\ relationEntry o d.
Proof.
  unfold compareRelations, relationEntry.
  destruct (semanticMatchingEnabled o); cbv zeta;
    match goal with
    | |- context [geb ?s ?t] => destruct (geb s t) eqn:Hgeb; [|done]
    end;
    intros [= <-]; cbn [candidate existing similarityScore matchType duplicateType];
    (split; [done|]); (split; [done|]); (split; [done|]);
    destruct (sameRelation r1 r2);
    repeat match goal with |- context [if ?b then _ else _] => destruct b end;
    intuition congruence.
Qed.

Lemma compareObservations_inv (o : MergedOptions) (c1 c2 : string) (d : Duplicate string) :
  compareObservations o c1 c2 = Some d ->
  candidate d = c1 /\ existing d = c2 /\ observationEntry o d.
Proof.
  unfold compareObservations, observationEntry.
  destruct (semanticMatchingEnabled o); cbv zeta;
    match goal with
    | |- context [geb ?s ?t] => destruct (geb s t) eqn:Hgeb; [|done]
    end;
    intros [= <-]; cbn [candidate existing similarityScore matchType duplicateType];
    (split; [done|]); (split; [done|]); (split; [done|]);
    destruct (decide (c1 = c2)) as [Hc|Hc];
    rewrite ?(bool_decide_eq_true_2 _ Hc), ?(bool_decide_eq_false_2 _ Hc);
    repeat match goal with |- context [if ?b then _ else _] => destruct b end;
    intuition congruence.
Qed.

Lemma laterPairs_inv {A B} (f : A -> A -> option B) (l : list A) (d : B) :
  d ∈ laterPairs f l ->
  exists i j x y, i < j /\ l !! i = Some x /\ l !! j = Some y /\ f x y = Some d.
Proof.
  induction l as [|z l IH]; [by intros ?%elem_of_nil|].
  cbn [laterPairs]. intros [Hd|Hd]%elem_of_app.
  - apply list_elem_of_omap in Hd as (y & (j & Hj)%list_elem_of_lookup_1 & Hf).
    exists 0, (S j), z, y. split; [lia|]. by repeat split.
  - destruct (IH Hd) as (i & j & x & y & Hlt & Hi & Hj & Hf).
    exists (S i), (S j), x, y. split; [lia|]. by repeat split.
Qed.

(** Every entry of a report is justified.  An entry of [duplicateEntities]
    pairs an entity of the request with a stored entity, an entry of
    [duplicateRelations] a relation of the request with a stored relation,
    an entry of [duplicateObservations] a content of the request with an
    observation of the first stored entity of its name, and an entry of
    [existingDuplicates] two stored items, the earlier first.  The score of
    every entry has passed its threshold ([>=]), its match is "exact"
    exactly for equal names (ends and types, texts), and it is "structural"
    exactly for equal names and types.  Without the flag
    [checkExistingGraph], [existingDuplicates] is empty. *)
Theorem findDuplicates_entries (data : DuplicateData) (options : Options.t) (m : Manager) :
  let graph := storedGraph m in
  let o := mergeOptions options in
  exists report,
    outcome (findDuplicates data options) m = Returned report /\
    Forall (fun d => candidate d ∈ default [] (dataEntities data) /\
                     existing d ∈ entities graph /\ entityEntry o d)
           (duplicateEntities report) /\
    Forall (fun d => candidate d ∈ default [] (dataRelations data) /\
                     existing d ∈ relations graph /\ relationEntry o d)
           (duplicateRelations report) /\
    Forall (fun nd => exists request e,
                        request ∈ default [] (dataObservations data) /\
                        entityName request = nd.1 /\
                        candidate nd.2 ∈ contents request /\
                        findEntity nd.1 graph = Some e /\
                        existing nd.2 ∈ observations e /\
                        observationEntry o nd.2)
           (duplicateObservations report) /\
    Forall (fun d => (exists i j, i < j /\
                                  entities graph !! i = Some (candidate d) /\
                                  entities graph !! j = Some (existing d)) /\
                     entityEntry o d)
           (existingDuplicateEntities report) /\
    Forall (fun d => (exists i j, i < j /\
                                  relations graph !! i = Some (candidate d) /\
                                  relations graph !! j = Some (existing d)) /\
                     relationEntry o d)
           (existingDuplicateRelations report) /\
    (checkExistingGraph o || default false (dataCheckExistingGraph data) = false ->
     existingDuplicateEntities report = [] /\ existingDuplicateRelations report = []).
Proof.
  cbv zeta.
  destruct (findDuplicates_fields data options m)
    as (report & Hrun & Hrelations & Hobservations & Hexisting & HexistingR).
  destruct (findDuplicates_run data options m) as (report' & Hrun' & Hentities).
  rewrite Hrun in Hrun'. injection Hrun' as <-.
  exists report. split; [done|].
  rewrite Hentities, Hrelations, Hobservations, Hexisting, HexistingR.
  clear. repeat match goal with |- _ /\ _ => split end.
  - apply Forall_forall. intros d (e1 & He1 & Hd)%list_elem_of_In%in_flat_map.
    apply list_elem_of_In, list_elem_of_omap in Hd as (e2 & He2 & Hd).
    apply compareEntities_inv in Hd as (<- & <- & Hentry).
    split; [by apply list_elem_of_In|]. by split.
  - apply Forall_forall. intros d (r1 & Hr1 & Hd)%list_elem_of_In%in_flat_map.
    apply list_elem_of_In, list_elem_of_omap in Hd as (r2 & Hr2 & Hd).
    apply compareRelations_inv in Hd as (<- & <- & Hentry).
    split; [by apply list_elem_of_In|]. by split.
  - apply Forall_forall. intros [n d] (request & Hrequest & Hd)%list_elem_of_In%in_flat_map.
    rewrite find_findEntity in Hd.
    destruct (findEntity (entityName request) (storedGraph m)) as [e|] eqn:Hfind; [|done].
    apply in_flat_map in Hd as (content & Hcontent & Hd).
    apply list_elem_of_In, list_elem_of_omap in Hd as (existingObservation & Hin & Hd).
    destruct (compareObservations _ content existingObservation) as [d'|] eqn:Hcompare;
      [|done].
    injection Hd as <- <-.
    apply compareObservations_inv in Hcompare as (<- & <- & Hentry).
    exists request, e. cbn [fst snd].
    split; [by apply list_elem_of_In|]. split; [done|].
    split; [by apply list_elem_of_In|]. split; [done|]. by split.
  - destruct (_ || _); [|done]. apply Forall_forall.
    intros d (i & j & x & y & Hlt & Hi & Hj & Hd)%laterPairs_inv.
    apply compareEntities_inv in Hd as (<- & <- & Hentry).
    split; [by exists i, j|done].
  - destruct (_ || _); [|done]. apply Forall_forall.
    intros d (i & j & x & y & Hlt & Hi & Hj & Hd)%laterPairs_inv.
    apply compareRelations_inv in Hd as (<- & <- & Hentry).
    split; [by exists i, j|done].
  - by intros ->.
Qed.

(** ** Uses of the further properties *)

(** A use of it: Alice, who is stored with "likes tea", gets that content
    again and a new one. *)
Lemma addObservations_adds_witness :
  exists results,
    outcome (addObservations [aliceLikesTeaAndJam]) aliceStore = Returned results /\
    Forall2 (fun o r => resultEntityName r = entityName o /\
                        addedObservations r `sublist_of` contents o)
            [aliceLikesTeaAndJam] results /\
    Forall (fun o => exists e,
                       findEntity (entityName o)
                                  (storedGraph (exec (addObservations [aliceLikesTeaAndJam])
                                                     aliceStore)) = Some e /\
                       Forall (fun c => c ∈ observations e) (contents o))
           [aliceLikesTeaAndJam] /\
    Forall2 extends
            (entities (storedGraph aliceStore))
            (entities (storedGraph (exec (addObservations [aliceLikesTeaAndJam])
                                         aliceStore))) /\
    relations (storedGraph (exec (addObservations [aliceLikesTeaAndJam]) aliceStore)) =
      relations (storedGraph aliceStore).
Proof.
  assert (Forall (fun o => entityName o ∈ map name (entities (storedGraph aliceStore)))
                 [aliceLikesTeaAndJam]) as Hstored
    by (repeat constructor; vm_compute; by left).
  exact (addObservations_adds [aliceLikesTeaAndJam] aliceStore Hstored).
Defined.

(** A use of it: Bob is created in the store that holds Alice, and deleted
    again. *)
Lemma createEntities_deleteEntities_witness :
  storedGraph (exec (deleteEntities (map name [bob])) (exec (createEntities [bob]) aliceStore)) =
    storedGraph aliceStore.
Proof.
  assert (Forall (fun e => name e ∉ map name (entities (storedGraph aliceStore))) [bob])
    as Hfresh.
  { repeat constructor. vm_compute. intros H.
    by repeat (apply elem_of_cons in H as [H|H]; [done|]); apply elem_of_nil in H. }
  assert (Forall (fun r => (from r ∉ map name [bob]) /\ (to r ∉ map name [bob]))
                 (relations (storedGraph aliceStore))) as Hfree
    by (vm_compute; constructor).
  exact (createEntities_deleteEntities [bob] aliceStore Hfresh Hfree).
Defined.

(** A use of it: "Alice knows Bob" against the store that holds it, with
    the default options. *)
Lemma findDuplicates_stored_relation_witness :
  exists report,
    outcome (findDuplicates (relationCandidate aliceKnowsBob) Options.empty)
            aliceBobStore = Returned report /\
    {| candidate := aliceKnowsBob; existing := loadedRelation aliceKnowsBob;
       similarityScore := 1%float; matchType := "exact";
       duplicateType := "structural" |}
      ∈ duplicateRelations report.
Proof.
  assert (loadedRelation aliceKnowsBob ∈ relations (storedGraph aliceBobStore)) as Hstored
    by (vm_compute; by left).
  assert (aliceKnowsBob ∈ [aliceKnowsBob]) as Hin by (by left).
  exact (findDuplicates_stored_relation aliceBobStore (relationCandidate aliceKnowsBob)
           [aliceKnowsBob] aliceKnowsBob (loadedRelation aliceKnowsBob) Options.empty
           eq_refl Hin Hstored eq_refl eq_refl eq_refl eq_refl eq_refl).
Defined.

(** A use of it: "likes tea" for Alice against the store that holds Alice
    with that observation. *)
Lemma findDuplicates_stored_observation_witness :
  exists report,
    outcome (findDuplicates (observationCandidate aliceLikesTea) Options.empty)
            aliceStore = Returned report /\
    (entityName aliceLikesTea,
     {| candidate := "likes tea"; existing := "likes tea"; similarityScore := 1%float;
        matchType := "exact"; duplicateType := "structural" |})
      ∈ duplicateObservations report.
Proof.
  assert (aliceLikesTea ∈ [aliceLikesTea]) as Hin by (by left).
  assert ("likes tea" ∈ contents aliceLikesTea) as Hcontent by (by left).
  assert (findEntity (entityName aliceLikesTea) (storedGraph aliceStore) =
            Some (loadedEntity alice)) as Hfind by (by vm_compute).
  assert ("likes tea" ∈ observations (loadedEntity alice)) as Hobservation by (by left).
  exact (findDuplicates_stored_observation aliceStore (observationCandidate aliceLikesTea)
           [aliceLikesTea] aliceLikesTea (loadedEntity alice) "likes tea" Options.empty
           eq_refl Hin Hcontent Hfind Hobservation eq_refl eq_refl).
Defined.

(** A use of it: the two Alices that one call of [createEntities] has
    stored. *)
Lemma findDuplicates_existing_pair_witness :
  exists report,
    outcome (findDuplicates existingGraphCheck Options.empty) twoAlicesStore =
      Returned report /\
    {| candidate := loadedEntity alice; existing := loadedEntity alice;
       similarityScore := 1%float; matchType := "exact";
       duplicateType := "structural" |}
      ∈ existingDuplicateEntities report.
Proof.
  assert (entities (storedGraph twoAlicesStore) !! 0 = Some (loadedEntity alice)) as H0
    by (by vm_compute).
  assert (entities (storedGraph twoAlicesStore) !! 1 = Some (loadedEntity alice)) as H1
    by (by vm_compute).
  assert (0 < 1) as Hlt by lia.
  exact (findDuplicates_existing_pair twoAlicesStore existingGraphCheck Options.empty
           0 1 (loadedEntity alice) (loadedEntity alice)
           eq_refl H0 H1 Hlt eq_refl eq_refl eq_refl eq_refl).
Defined.


(** A use of it: "Alice" and "aLICE". *)
Lemma editDistance_zero_witness :
  editDistance "Alice" "aLICE" = 0 <-> JS.toLowerCase "Alice" = JS.toLowerCase "aLICE".
Proof.
  exact (editDistance_zero "Alice" "aLICE" eq_refl eq_refl).
Defined.
